(** * forum-service: messages, expiring comments and the broadcast hub

    A shallow embedding of the Go sources of the forum service:

    - [domain]      internal/domain: the [Message], [Comment] and [User]
                    entities and their [Validate] methods;
    - [repository]  internal/repository/message_repository.go: the SQL
                    statements of [MessageRepository], read as operations on
                    the two tables [messages] and [comments];
    - [usecase]     internal/usecase: [MessageUseCase] (message_usecase.go,
                    wired by cmd/main.go) and the forwarding [UseCase]
                    (usecase.go, wired by main.go);
    - [http]        internal/delivery/http/handler.go: [Handler.getComments];
    - [ws]          internal/delivery/ws/hub.go: the three cases of [Hub.Run].

    The definitions come first, module by module; [examples] holds the
    small inputs the statements are tried on; the facts follow, from the
    repository up to the hub.

    Conventions.  An [int64] is a [Z]: the only arithmetic on ids is the
    AUTOINCREMENT of the tables, which is as modelled while the counter is
    below [repository.max_rowid] (see [repository.Create]).  A [time.Time]
    is a [Z], the number of seconds
    since the epoch in UTC: every timestamp is written to and compared in the
    database as its RFC3339 text, which has a resolution of one second and,
    in UTC, orders as the instants do.  A Go [error] made by [errors.New] is
    its message.  The database itself is assumed to answer (driver and I/O
    failures are outside the model), so what is stated about errors is
    stated about the errors the code makes itself. *)

From Stdlib Require Import ZArith String Ascii Bool Lia.
From stdpp Require Import base option list sorting gmap strings.

Local Open Scope string_scope.
Local Open Scope Z_scope.

(** An [error] value of Go, by its message. *)
Definition error := string.

(** What a Go function with results [(T, error)] returns. *)
Inductive result (A : Type) : Type :=
| Ok (a : A)
| Err (e : error).
Arguments Ok {A} a.
Arguments Err {A} e.

(* ===================================================================== *)
(** ** internal/domain *)
(* ===================================================================== *)
Module domain.

Module Message.
Record t := mk {
  ID : Z;
  UserID : Z;
  Username : string;
  Content : string;
  CreatedAt : Z;
  IsBanned : bool
}.
Definition with_ID (m : t) (id : Z) : t :=
  mk id (UserID m) (Username m) (Content m) (CreatedAt m) (IsBanned m).
Definition with_CreatedAt (m : t) (c : Z) : t :=
  mk (ID m) (UserID m) (Username m) (Content m) c (IsBanned m).
Definition with_IsBanned (m : t) (b : bool) : t :=
  mk (ID m) (UserID m) (Username m) (Content m) (CreatedAt m) b.
End Message.

Module Comment.
Record t := mk {
  ID : Z;
  MessageID : Z;
  UserID : Z;
  Username : string;
  Content : string;
  CreatedAt : Z;
  ExpiresAt : Z
}.
Definition with_ID (c : t) (id : Z) : t :=
  mk id (MessageID c) (UserID c) (Username c) (Content c)
     (CreatedAt c) (ExpiresAt c).
Definition with_times (c : t) (created expires : Z) : t :=
  mk (ID c) (MessageID c) (UserID c) (Username c) (Content c)
     created expires.
End Comment.

Module User.
Record t := mk {
  ID : Z;
  Username : string;
  Role : string;
  IsBanned : bool
}.
End User.

(** The white space [strings.TrimSpace] removes, among the one-byte
    characters: tab, line feed, vertical tab, form feed, carriage return
    and space.  (Go also removes the Unicode spaces of several bytes.) *)
Definition is_space (a : ascii) : bool :=
  let n := nat_of_ascii a in
  ((9 <=? n)%nat && (n <=? 13)%nat) || (n =? 32)%nat.

Fixpoint trim_left (s : string) : string :=
  match s with
  | EmptyString => EmptyString
  | String a s' => if is_space a then trim_left s' else s
  end.

Fixpoint trim_right (s : string) : string :=
  match s with
  | EmptyString => EmptyString
  | String a s' =>
      match trim_right s' with
      | EmptyString => if is_space a then EmptyString else String a EmptyString
      | r => String a r
      end
  end.

Definition TrimSpace (s : string) : string := trim_right (trim_left s).

(** [len(s)]: the number of bytes. *)
Definition len (s : string) : Z := Z.of_nat (String.length s).

(** [func (m *Message) Validate() error]; [None] is [nil]. *)
Definition Message_Validate (m : Message.t) : option error :=
  if String.eqb (TrimSpace (Message.Content m)) "" then
    Some "content cannot be empty"
  else if String.eqb (TrimSpace (Message.Username m)) "" then
    Some "username cannot be empty"
  else if len (Message.Content m) >? 1000 then
    Some "content too long"
  else None.

(** [func (c *Comment) Validate() error]. *)
Definition Comment_Validate (c : Comment.t) : option error :=
  if String.eqb (TrimSpace (Comment.Content c)) "" then
    Some "content cannot be empty"
  else if String.eqb (TrimSpace (Comment.Username c)) "" then
    Some "username cannot be empty"
  else if len (Comment.Content c) >? 500 then
    Some "comment too long"
  else if Comment.MessageID c <=? 0 then
    Some "invalid message ID"
  else None.

End domain.

(* ===================================================================== *)
(** ** internal/repository: MessageRepository *)
(* ===================================================================== *)
Module repository.
Import domain.

(** The two tables, rows in insertion order, and the AUTOINCREMENT
    counters (the largest id ever given out in each table). *)
Record Store := mkStore {
  messages : list Message.t;
  comments : list Comment.t;
  messages_seq : Z;
  comments_seq : Z
}.

Definition empty : Store := mkStore [] [] 0 0.

Definition has_id (id : Z) (m : Message.t) : bool := Message.ID m =? id.
Definition comment_has_id (id : Z) (c : Comment.t) : bool := Comment.ID c =? id.
Definition comment_of (messageID : Z) (c : Comment.t) : bool :=
  Comment.MessageID c =? messageID.

(** [expires_at <= ?], the WHERE clause of the sweep. *)
Definition expired (now : Z) (c : Comment.t) : bool := Comment.ExpiresAt c <=? now.
(** [expires_at > ?], the WHERE clause of [GetComments]. *)
Definition live (now : Z) (c : Comment.t) : bool := Comment.ExpiresAt c >? now.

(** ORDER BY created_at DESC and ASC.  SQL leaves the order of rows with
    equal keys open; the sort used here keeps one of the allowed orders. *)
Definition newer_first (a b : Message.t) : Prop :=
  Message.CreatedAt b <= Message.CreatedAt a.
Definition older_first (a b : Comment.t) : Prop :=
  Comment.CreatedAt a <= Comment.CreatedAt b.

#[global] Instance newer_first_dec : RelDecision newer_first :=
  fun a b => decide (Message.CreatedAt b <= Message.CreatedAt a).
#[global] Instance older_first_dec : RelDecision older_first :=
  fun a b => decide (Comment.CreatedAt a <= Comment.CreatedAt b).

Definition order_by_created_at_desc (l : list Message.t) : list Message.t :=
  merge_sort newer_first l.
Definition order_by_created_at_asc (l : list Comment.t) : list Comment.t :=
  merge_sort older_first l.

(** LIMIT ? OFFSET ? as SQLite reads them: a negative offset is 0 and a
    negative limit is no limit. *)
Definition limit_offset {A} (limit offset : Z) (rows : list A) : list A :=
  let rest := drop (Z.to_nat offset) rows in
  if limit <? 0 then rest else take (Z.to_nat limit) rest.

(** [GetByID]: SELECT ... FROM messages WHERE id = ?; no row is the error
    "message not found". *)
Definition GetByID (id : Z) (s : Store) : result Message.t :=
  match find (has_id id) (messages s) with
  | Some m => Ok m
  | None => Err "message not found"
  end.

(** [List]: SELECT COUNT( * ) FROM messages, then
    SELECT ... FROM messages ORDER BY created_at DESC LIMIT ? OFFSET ?. *)
Definition List (limit offset : Z) (s : Store) : list Message.t * Z :=
  let total := Z.of_nat (length (messages s)) in
  let rows := limit_offset limit offset (order_by_created_at_desc (messages s)) in
  (rows, total).

(** [GetAllMessages]: SELECT ... FROM messages ORDER BY created_at DESC. *)
Definition GetAllMessages (s : Store) : list Message.t :=
  order_by_created_at_desc (messages s).

(** The highest row id SQLite can give: 2^63 - 1. *)
Definition max_rowid : Z := 9223372036854775807.

(** [Create]: stamps the message with the current time, inserts it and
    returns the new id.  The caller's struct keeps the new [CreatedAt].

    Both tables are AUTOINCREMENT: the id of a new row is one above the
    highest id ever given, [messages_seq s + 1].  This is what the INSERT
    does while the counter is below [max_rowid]; at [max_rowid] the INSERT
    fails and [Create] returns [(0, err)], a case this function does not
    have.  What is proved about the id [Create] returns is therefore stated
    under [messages_seq s < max_rowid].

    A time is a whole second here, which is what the row holds
    ([Format(time.RFC3339)]).  In Go the struct handed back keeps
    [time.Now().UTC()] to the nanosecond, so its [CreatedAt] agrees with
    the row's only to the second. *)
Definition Create (now : Z) (message : Message.t) (s : Store)
  : Z * Message.t * Store :=
  let message := Message.with_CreatedAt message now in
  let id := messages_seq s + 1 in
  (id, message,
   mkStore (messages s ++ [Message.with_ID message id]) (comments s)
           id (comments_seq s)).

Definition set_banned (id : Z) (b : bool) (m : Message.t) : Message.t :=
  if has_id id m then Message.with_IsBanned m b else m.

(** [Ban]: UPDATE messages SET is_banned = 1 WHERE id = ?.  The number of
    rows changed is not looked at: the result is [nil] in every case. *)
Definition Ban (id : Z) (s : Store) : Store :=
  mkStore (map (set_banned id true) (messages s)) (comments s)
          (messages_seq s) (comments_seq s).

(** [Unban]: UPDATE messages SET is_banned = 0 WHERE id = ?. *)
Definition Unban (id : Z) (s : Store) : Store :=
  mkStore (map (set_banned id false) (messages s)) (comments s)
          (messages_seq s) (comments_seq s).

(** [CreateComment]: the parent must exist; the comment is stamped with
    the current time and expires five minutes later.  The id is given as
    in [Create], from [comments_seq], and as there the INSERT at a counter
    of [max_rowid] is a case this function does not have. *)
Definition CreateComment (now : Z) (comment : Comment.t) (s : Store)
  : result (Z * Comment.t) * Store :=
  match GetByID (Comment.MessageID comment) s with
  | Err e => (Err e, s)
  | Ok _ =>
      let comment := Comment.with_times comment now (now + 5 * 60) in
      let id := comments_seq s + 1 in
      (Ok (id, comment),
       mkStore (messages s) (comments s ++ [Comment.with_ID comment id])
               (messages_seq s) id)
  end.

(** [GetComments]: the parent must exist; then
    SELECT ... FROM comments WHERE message_id = ? AND expires_at > ?
    ORDER BY created_at ASC. *)
Definition GetComments (now : Z) (messageID : Z) (s : Store)
  : result (list Comment.t) :=
  match GetByID messageID s with
  | Err e => Err e
  | Ok _ =>
      Ok (order_by_created_at_asc
            (filter (fun c => comment_of messageID c && live now c = true)
                    (comments s)))
  end.

(** [Delete]: DELETE FROM comments WHERE message_id = ?, then
    DELETE FROM messages WHERE id = ?. *)
Definition Delete (id : Z) (s : Store) : Store :=
  mkStore (filter (fun m => has_id id m = false) (messages s))
          (filter (fun c => comment_of id c = false) (comments s))
          (messages_seq s) (comments_seq s).

(** [GetCommentByID]: SELECT ... FROM comments WHERE id = ?; no row is the
    error "comment not found".  The statement has no condition on
    [expires_at]. *)
Definition GetCommentByID (id : Z) (s : Store) : result Comment.t :=
  match find (comment_has_id id) (comments s) with
  | Some c => Ok c
  | None => Err "comment not found"
  end.

(** [DeleteComment]: DELETE FROM comments WHERE id = ?. *)
Definition DeleteComment (id : Z) (s : Store) : Store :=
  mkStore (messages s)
          (filter (fun c => comment_has_id id c = false) (comments s))
          (messages_seq s) (comments_seq s).

(** [DeleteExpiredComments]: DELETE FROM comments WHERE expires_at <= ?.
    The function has the single result [error]; [None] is [nil]. *)
Definition DeleteExpiredComments (now : Z) (s : Store) : option error * Store :=
  (None,
   mkStore (messages s)
           (filter (fun c => expired now c = false) (comments s))
           (messages_seq s) (comments_seq s)).

(** What [id INTEGER PRIMARY KEY AUTOINCREMENT] keeps true of each table:
    no two rows share an id, and no id is above the counter. *)
Definition valid (s : Store) : Prop :=
  NoDup (Message.ID <$> messages s) ∧
  NoDup (Comment.ID <$> comments s) ∧
  Forall (fun m => Message.ID m <= messages_seq s) (messages s) ∧
  Forall (fun c => Comment.ID c <= comments_seq s) (comments s).

#[global] Instance valid_dec s : Decision (valid s).
Proof. unfold valid. apply _. Defined.

(** How many rows a sweep at [now] removes. *)
Definition expired_count (now : Z) (s : Store) : nat :=
  length (filter (fun c => expired now c = true) (comments s)).

End repository.

(* ===================================================================== *)
(** ** internal/usecase *)
(* ===================================================================== *)
Module usecase.
Import domain.

(** A use case talks to three collaborators: the repository, the auth
    client and the hub.  Every call is recorded, in order, so that what an
    operation did (and in which order) can be read off afterwards. *)
Inductive RepoOp : Type :=
| OpGetByID (id : Z)
| OpList (limit offset : Z)
| OpGetAllMessages
| OpCreate (message : Message.t)
| OpBan (id : Z)
| OpUnban (id : Z)
| OpDelete (id : Z)
| OpCreateComment (comment : Comment.t)
| OpGetComments (messageID : Z)
| OpGetCommentByID (id : Z)
| OpDeleteComment (id : Z)
| OpDeleteExpiredComments.

Inductive Event : Type :=
| AuthGetUser (id : Z)              (* u.authClient.GetUser(id) *)
| Repo (op : RepoOp)                (* a method of u.repo *)
| Broadcast (message : Message.t).  (* u.hub.BroadcastMessage(message) *)

Definition is_broadcast (ev : Event) : bool :=
  match ev with Broadcast _ => true | _ => false end.

Definition is_lookup (ev : Event) : bool :=
  match ev with AuthGetUser _ => true | _ => false end.

(** The state an operation runs in: the database, what the auth service
    answers for each user id, the clock, and the calls made so far. *)
Record World := mkWorld {
  repo : repository.Store;
  auth : Z -> result User.t;
  clock : Z;
  trace : list Event
}.

Definition log (ev : Event) (w : World) : World :=
  mkWorld (repo w) (auth w) (clock w) (trace w ++ [ev]).

Definition set_repo (s : repository.Store) (w : World) : World :=
  mkWorld s (auth w) (clock w) (trace w).

(** Time passes: the same world with the clock at [t]. *)
Definition at_time (t : Z) (w : World) : World :=
  mkWorld (repo w) (auth w) t (trace w).

(** Go code that returns [(T, error)] and acts on the collaborators. *)
Definition M (A : Type) : Type := World -> result A * World.

Definition ret {A} (a : A) : M A := fun w => (Ok a, w).

Definition fail {A} (e : error) : M A := fun w => (Err e, w).

Definition bind {A B} (c : M A) (k : A -> M B) : M B :=
  fun w =>
    match c w with
    | (Ok a, w') => k a w'
    | (Err e, w') => (Err e, w')
    end.

Notation "x <- c ;; k" := (bind c (fun x => k))
  (at level 100, c at next level, right associativity).

(** [time.Now()]. *)
Definition time_Now : M Z := fun w => (Ok (clock w), w).

(** The zero [time.Time] (January 1, year 1, UTC) in seconds. *)
Definition zero_time : Z := -62135596800.

(** [u.authClient.GetUser(id)]. *)
Definition auth_GetUser (id : Z) : M User.t :=
  fun w => (auth w id, log (AuthGetUser id) w).

(** [u.hub.BroadcastMessage(message)]. *)
Definition hub_BroadcastMessage (message : Message.t) : M unit :=
  fun w => (Ok tt, log (Broadcast message) w).

(** The methods of [u.repo], on the database of the world. *)
Definition repo_GetByID (id : Z) : M Message.t :=
  fun w => (repository.GetByID id (repo w), log (Repo (OpGetByID id)) w).

Definition repo_List (limit offset : Z) : M (list Message.t * Z) :=
  fun w => (Ok (repository.List limit offset (repo w)),
            log (Repo (OpList limit offset)) w).

Definition repo_GetAllMessages : M (list Message.t) :=
  fun w => (Ok (repository.GetAllMessages (repo w)),
            log (Repo OpGetAllMessages) w).

Definition repo_Create (message : Message.t) : M (Z * Message.t) :=
  fun w =>
    let '(id, message', s) := repository.Create (clock w) message (repo w) in
    (Ok (id, message'), set_repo s (log (Repo (OpCreate message)) w)).

Definition repo_Ban (id : Z) : M unit :=
  fun w => (Ok tt, set_repo (repository.Ban id (repo w)) (log (Repo (OpBan id)) w)).

Definition repo_Unban (id : Z) : M unit :=
  fun w => (Ok tt, set_repo (repository.Unban id (repo w)) (log (Repo (OpUnban id)) w)).

Definition repo_Delete (id : Z) : M unit :=
  fun w => (Ok tt, set_repo (repository.Delete id (repo w)) (log (Repo (OpDelete id)) w)).

Definition repo_CreateComment (comment : Comment.t) : M (Z * Comment.t) :=
  fun w =>
    let '(r, s) := repository.CreateComment (clock w) comment (repo w) in
    (r, set_repo s (log (Repo (OpCreateComment comment)) w)).

Definition repo_GetComments (messageID : Z) : M (list Comment.t) :=
  fun w => (repository.GetComments (clock w) messageID (repo w),
            log (Repo (OpGetComments messageID)) w).

Definition repo_GetCommentByID (id : Z) : M Comment.t :=
  fun w => (repository.GetCommentByID id (repo w),
            log (Repo (OpGetCommentByID id)) w).

Definition repo_DeleteComment (id : Z) : M unit :=
  fun w => (Ok tt, set_repo (repository.DeleteComment id (repo w))
                            (log (Repo (OpDeleteComment id)) w)).

Definition repo_DeleteExpiredComments : M unit :=
  fun w =>
    let '(err, s) := repository.DeleteExpiredComments (clock w) (repo w) in
    (match err with Some e => Err e | None => Ok tt end,
     set_repo s (log (Repo OpDeleteExpiredComments) w)).

(** *** message_usecase.go: MessageUseCase *)
Module MessageUseCase.

Definition GetMessages (limit offset : Z) : M (list Message.t * Z) :=
  repo_List limit offset.

Definition GetAllMessages : M (list Message.t) := repo_GetAllMessages.

Definition CreateMessage (userID : Z) (username content : string)
  : M Message.t :=
  if String.eqb content "" then fail "content is required"
  else
    (* Skip auth validation for anonymous users (ID=0) *)
    _ <- (if negb (userID =? 0) then
            user <- auth_GetUser userID ;;
            if User.IsBanned user then fail "user is banned" else ret tt
          else ret tt) ;;
    now <- time_Now ;;
    let message := Message.mk 0 userID username content now false in
    created <- repo_Create message ;;
    let '(messageID, message) := created in
    let message := Message.with_ID message messageID in
    _ <- hub_BroadcastMessage message ;;
    ret message.

(** [GetByID] never returns a nil message with a nil error, so the test
    [message == nil] of the source is never taken. *)
Definition BanMessage (id : Z) : M unit :=
  message <- repo_GetByID id ;;
  _ <- repo_Ban id ;;
  let message := Message.with_IsBanned message true in
  _ <- hub_BroadcastMessage message ;;
  ret tt.

Definition UnbanMessage (id : Z) : M unit :=
  message <- repo_GetByID id ;;
  _ <- repo_Unban id ;;
  let message := Message.with_IsBanned message false in
  _ <- hub_BroadcastMessage message ;;
  ret tt.

Definition GetByID (id : Z) : M Message.t := repo_GetByID id.

Definition CreateComment (messageID userID : Z) (username content : string)
  : M Comment.t :=
  if String.eqb content "" then fail "content is required"
  else
    _ <- (if negb (userID =? 0) then
            user <- auth_GetUser userID ;;
            if User.IsBanned user then fail "user is banned" else ret tt
          else ret tt) ;;
    now <- time_Now ;;
    let comment :=
      Comment.mk 0 messageID userID username content now zero_time in
    created <- repo_CreateComment comment ;;
    let '(commentID, comment) := created in
    let comment := Comment.with_ID comment commentID in
    ret comment.

Definition GetComments (messageID : Z) : M (list Comment.t) :=
  repo_GetComments messageID.

Definition DeleteMessage (id : Z) : M unit :=
  _ <- repo_GetByID id ;;
  _ <- repo_Delete id ;;
  ret tt.

Definition DeleteComment (id : Z) : M unit :=
  _ <- repo_GetCommentByID id ;;
  _ <- repo_DeleteComment id ;;
  ret tt.

(** [CleanupExpiredComments() error]: the sweep the scheduler runs each
    minute. *)
Definition CleanupExpiredComments : M unit := repo_DeleteExpiredComments.

End MessageUseCase.

(** *** usecase.go: UseCase, which hands every call to the repository *)
Module UseCase.

Definition GetMessages (limit offset : Z) : M (list Message.t * Z) :=
  repo_List limit offset.

Definition CreateMessage (userID : Z) (username content : string)
  : M Message.t :=
  let message := Message.mk 0 userID username content zero_time false in
  created <- repo_Create message ;;
  let '(id, message) := created in
  ret (Message.with_ID message id).

Definition BanMessage (id : Z) : M unit := repo_Ban id.

Definition UnbanMessage (id : Z) : M unit := repo_Unban id.

Definition CreateComment (messageID userID : Z) (username content : string)
  : M Comment.t :=
  now <- time_Now ;;
  let comment :=
    Comment.mk 0 messageID userID username content now zero_time in
  created <- repo_CreateComment comment ;;
  let '(id, comment) := created in
  ret (Comment.with_ID comment id).

Definition GetComments (messageID : Z) : M (list Comment.t) :=
  repo_GetComments messageID.

Definition DeleteMessage (id : Z) : M unit := repo_Delete id.

Definition DeleteComment (id : Z) : M unit := repo_DeleteComment id.

End UseCase.

(** What reaches the use case from outside: the write requests, the sweep
    of the scheduler, and time passing. *)
Inductive Call : Type :=
| CallCreateMessage (userID : Z) (username content : string)
| CallBanMessage (id : Z)
| CallUnbanMessage (id : Z)
| CallDeleteMessage (id : Z)
| CallCreateComment (messageID userID : Z) (username content : string)
| CallDeleteComment (id : Z)
| CallCleanupExpiredComments
| Tick (t : Z).

(** The world after a call, whatever the call returned. *)
Definition perform (w : World) (c : Call) : World :=
  match c with
  | CallCreateMessage userID username content =>
      snd (MessageUseCase.CreateMessage userID username content w)
  | CallBanMessage id => snd (MessageUseCase.BanMessage id w)
  | CallUnbanMessage id => snd (MessageUseCase.UnbanMessage id w)
  | CallDeleteMessage id => snd (MessageUseCase.DeleteMessage id w)
  | CallCreateComment messageID userID username content =>
      snd (MessageUseCase.CreateComment messageID userID username content w)
  | CallDeleteComment id => snd (MessageUseCase.DeleteComment id w)
  | CallCleanupExpiredComments => snd (MessageUseCase.CleanupExpiredComments w)
  | Tick t => at_time t w
  end.

(** The calls an operation made: what it added to the trace. *)
Definition made {A} (c : M A) (w : World) (evs : list Event) : Prop :=
  trace (snd (c w)) = (trace w ++ evs)%list.

(** The message [MessageUseCase.CreateMessage] stores and announces. *)
Definition new_message (userID : Z) (username content : string) (w : World)
  : Message.t :=
  Message.mk (repository.messages_seq (repo w) + 1) userID username content
             (clock w) false.

(** The comment [MessageUseCase.CreateComment] stores. *)
Definition new_comment (messageID userID : Z) (username content : string)
           (w : World) : Comment.t :=
  Comment.mk (repository.comments_seq (repo w) + 1) messageID userID username
             content (clock w) (clock w + 5 * 60).

End usecase.

(* ===================================================================== *)
(** ** internal/delivery/http: the handler of GET .../comments *)
(* ===================================================================== *)
Module http.
Import domain usecase.

(** What the handler writes: [http.Error(w, text, code)], or the JSON
    object with the comments under status 200. *)
Inductive Response : Type :=
| Error (text : string) (code : Z)
| JSON (comments : list Comment.t).

Definition StatusInternalServerError : Z := 500.

(** [func (h *Handler) getComments(w, r, messageID)]. *)
Definition getComments (messageID : Z) (w : World) : Response * World :=
  match MessageUseCase.GetComments messageID w with
  | (Err e, w') => (Error e StatusInternalServerError, w')
  | (Ok comments, w') => (JSON comments, w')
  end.

End http.

(* ===================================================================== *)
(** ** internal/delivery/ws: the hub *)
(* ===================================================================== *)
Module ws.

(** A [*Client] is an address. *)
Definition Client := positive.

(** What is sent to the clients: the JSON text of a message. *)
Definition payload := string.

(** [client.send], a [chan []byte]: what is waiting in its buffer, the
    size of the buffer, and whether the channel has been closed. *)
Record Chan := mkChan {
  buf : list payload;
  cap : nat;
  closed : bool
}.

(** The state [Hub.Run] owns: the keys of [h.clients] (every value stored
    in that map is [true], and only the presence of a key is ever read),
    and the [send] channel of each client that exists.  A client without
    an entry has a nil channel. *)
Record Hub := mkHub {
  clients : gset Client;
  chans : gmap Client Chan
}.

(** [NewHub()]. *)
Definition NewHub : Hub := mkHub ∅ ∅.

(** [case client.send <- message] of a select with a default: taken when
    the buffer has room.  On a channel with a buffer ([0 < cap]) this is
    exactly when Go takes the case: a receiver only waits on an empty
    buffer, and a full buffer has nobody waiting on it.  On a channel
    without buffer ([cap = 0]) Go takes the case when a receiver is waiting,
    which the state here does not record; [can_send] is then [false], the
    answer for a channel nobody is reading.  What is proved about sessions
    that are dropped is stated for hubs that are [buffered]. *)
Definition can_send (ch : Chan) : bool := (length (buf ch) <? cap ch)%nat.

Definition push (message : payload) (ch : Chan) : Chan :=
  mkChan (buf ch ++ [message]) (cap ch) (closed ch).

Definition close_chan (ch : Chan) : Chan := mkChan (buf ch) (cap ch) true.

(** [close(client.send)]; [None] is a panic (a nil channel, or a channel
    closed before). *)
Definition close (c : Client) (h : Hub) : option Hub :=
  match chans h !! c with
  | None => None
  | Some ch =>
      if closed ch then None
      else Some (mkHub (clients h) (<[c := close_chan ch]> (chans h)))
  end.

(** [delete(h.clients, client)]. *)
Definition delete_client (c : Client) (h : Hub) : Hub :=
  mkHub (clients h ∖ {[c]}) (chans h).

(** [case client := <-h.register]. *)
Definition register (c : Client) (h : Hub) : Hub :=
  mkHub ({[c]} ∪ clients h) (chans h).

(** [case client := <-h.unregister]. *)
Definition unregister (c : Client) (h : Hub) : option Hub :=
  if decide (c ∈ clients h) then close c (delete_client c h)
  else Some h.

(** The body of the loop of [case message := <-h.broadcast], for one
    client.  A send on a closed channel panics; on a nil channel the send
    is never ready, the default case runs and [close] panics. *)
Definition send_or_drop (message : payload) (c : Client) (h : Hub)
  : option Hub :=
  match chans h !! c with
  | None => None
  | Some ch =>
      if closed ch then None
      else if can_send ch then
        Some (mkHub (clients h) (<[c := push message ch]> (chans h)))
      else
        h' ← close c h;
        Some (delete_client c h')
  end.

(** [for client := range h.clients], the clients met in the order
    [order].  Go fixes no order; a range over a map meets every key once,
    also when the key just met is deleted. *)
Fixpoint range_clients (order : list Client) (message : payload) (h : Hub)
  : option Hub :=
  match order with
  | [] => Some h
  | c :: rest =>
      h' ← send_or_drop message c h;
      range_clients rest message h'
  end.

(** [order] is one of the orders a range over [h.clients] can take. *)
Definition visits (order : list Client) (h : Hub) : Prop :=
  NoDup order ∧ ∀ c, c ∈ order ↔ c ∈ clients h.

(** One of them, to run the hub. *)
Definition broadcast (message : payload) (h : Hub) : option Hub :=
  range_clients (elements (clients h)) message h.

(** What arrives on the three channels [Run] selects on. *)
Inductive Request : Type :=
| Register (c : Client)
| Unregister (c : Client)
| Publish (message : payload).

(** One turn of the loop of [Hub.Run]. *)
Inductive step : Hub -> Request -> Hub -> Prop :=
| step_register c h :
    step h (Register c) (register c h)
| step_unregister c h h' :
    unregister c h = Some h' ->
    step h (Unregister c) h'
| step_publish message order h h' :
    visits order h ->
    range_clients order message h = Some h' ->
    step h (Publish message) h'.

(** Some turns, one after the other. *)
Inductive steps : Hub -> list Request -> Hub -> Prop :=
| steps_nil h : steps h [] h
| steps_cons h r h' rs h'' :
    step h r h' -> steps h' rs h'' -> steps h (r :: rs) h''.

(** The same loop as a function, ranging in the order of [elements]. *)
Definition Run_step (r : Request) (h : Hub) : option Hub :=
  match r with
  | Register c => Some (register c h)
  | Unregister c => unregister c h
  | Publish message => broadcast message h
  end.

(** Every registered client has a channel that is still open.  It holds
    of [NewHub], and every turn keeps it as long as the clients that
    register come with an open channel. *)
Definition open_at (c : Client) (h : Hub) : Prop :=
  ∃ ch, chans h !! c = Some ch ∧ closed ch = false.

Definition wf (h : Hub) : Prop := ∀ c, c ∈ clients h → open_at c h.

(** Every registered client has a send channel with a buffer. *)
Definition buffered (h : Hub) : Prop :=
  ∀ c ch, c ∈ clients h → chans h !! c = Some ch → (0 < cap ch)%nat.

(** No request of [rs] registers [c]. *)
Definition never_registers (c : Client) (rs : list Request) : Prop :=
  Forall (fun r => r ≠ Register c) rs.

End ws.

(* ===================================================================== *)
(** * Worked inputs *)
(* ===================================================================== *)
Module examples.
Import domain usecase.

(** An auth service that knows three users; user 3 is banned. *)
Definition auth0 (id : Z) : result User.t :=
  if id =? 1 then Ok (User.mk 1 "testuser" "user" false)
  else if id =? 2 then Ok (User.mk 2 "admin" "admin" false)
  else if id =? 3 then Ok (User.mk 3 "banned" "user" true)
  else Err "user not found".

(** An empty database, at second 1000. *)
Definition world0 : World := mkWorld repository.empty auth0 1000 [].

(** The world after an anonymous "Hello". *)
Definition world_hello : World :=
  snd (MessageUseCase.CreateMessage 0 "anonymous" "Hello" world0).

Definition hello : Message.t := Message.mk 1 0 "anonymous" "Hello" 1000 false.

(** ... and after user 2 has commented on it. *)
Definition world_nice : World :=
  snd (MessageUseCase.CreateComment 1 2 "admin" "Nice!" world_hello).

Definition nice : Comment.t := Comment.mk 1 1 2 "admin" "Nice!" 1000 1300.

(** Half a minute after the comment has expired, the sweep of that minute
    still to come. *)
Definition world_later : World := at_time 1330 world_nice.

(** A text of [n] letters. *)
Definition letters (n : nat) : string := string_of_list_ascii (repeat "a"%char n).

(** A hub with two sessions: the queue of 1 has room, that of 2 is full. *)
Definition hub12 : ws.Hub :=
  ws.mkHub {[1%positive; 2%positive]}
           (<[1%positive := ws.mkChan [] 1 false]>
              (<[2%positive := ws.mkChan ["old"] 1 false]> ∅)).

End examples.

(* ===================================================================== *)
(** ** The calls and their results *)
(* ===================================================================== *)
Module requests.
Import domain usecase.

(** The result of an operation without its value: [nil] or the error. *)
Definition void {A} (r : result A * World) : result unit * World :=
  match r with
  | (Ok _, w) => (Ok tt, w)
  | (Err e, w) => (Err e, w)
  end.

(** A call of [MessageUseCase], with what it returns. *)
Definition outcome (w : World) (c : Call) : result unit * World :=
  match c with
  | CallCreateMessage userID username content =>
      void (MessageUseCase.CreateMessage userID username content w)
  | CallBanMessage id => MessageUseCase.BanMessage id w
  | CallUnbanMessage id => MessageUseCase.UnbanMessage id w
  | CallDeleteMessage id => MessageUseCase.DeleteMessage id w
  | CallCreateComment messageID userID username content =>
      void (MessageUseCase.CreateComment messageID userID username content w)
  | CallDeleteComment id => MessageUseCase.DeleteComment id w
  | CallCleanupExpiredComments => MessageUseCase.CleanupExpiredComments w
  | Tick t => (Ok tt, at_time t w)
  end.

(** The operations whose source calls [u.hub.BroadcastMessage]. *)
Definition announces (c : Call) : bool :=
  match c with
  | CallCreateMessage _ _ _ | CallBanMessage _ | CallUnbanMessage _ => true
  | _ => false
  end.

Definition succeeded {A} (r : result A) : bool :=
  match r with Ok _ => true | Err _ => false end.

(** The broadcasts among some calls. *)
Definition broadcasts (evs : list Event) : list Event :=
  filter (fun ev => is_broadcast ev = true) evs.

(** The errors [MessageUseCase] and the lookups of the repository make
    themselves ([errors.New]).  The errors of the database (a statement
    that fails) and of the auth service are not among them. *)
Definition refusals : list error :=
  ["content is required"; "user is banned"; "message not found";
   "comment not found"].

End requests.

(* ===================================================================== *)
(** ** internal/delivery/grpc: ForumServer *)
(* ===================================================================== *)
Module grpc.
Import domain usecase.

(** [func (s *ForumServer) GetMessages(ctx, req)], of the server that
    skips banned messages: the page of the use case, every message with
    [IsBanned] left out, under the total the use case returned.  A
    [forum.Message] has the fields of a [domain.Message], the time as text. *)
Definition GetMessages (limit offset : Z) : M (list Message.t * Z) :=
  r <- MessageUseCase.GetMessages limit offset ;;
  let '(messages, total) := r in
  ret (filter (fun message => Message.IsBanned message = false) messages, total).

End grpc.

(* ===================================================================== *)
(** ** internal/delivery/http: ForumHandler *)
(* ===================================================================== *)
Module forum_handler.
Import domain usecase.

(** What a handler writes: [http.Error(w, text, code)]; the JSON of a
    comment under 201; or a bare status. *)
Inductive Reply : Type :=
| Error (text : string) (code : Z)
| Created (comment : Comment.t)
| Status (code : Z).

Definition StatusOK : Z := 200.
Definition StatusBadRequest : Z := 400.
Definition StatusNotFound : Z := 404.
Definition StatusInternalServerError : Z := 500.

(** [func (h *ForumHandler) CreateComment(w, r)].  [id] is what
    [strconv.ParseInt] makes of the path variable ([None]: it fails), [body]
    the [content] of the decoded JSON body ([None]: decoding fails). *)
Definition CreateComment (id : option Z) (body : option string) (w : World)
  : Reply * World :=
  match id with
  | None => (Error "Invalid message ID" StatusBadRequest, w)
  | Some messageID =>
      match body with
      | None => (Error "Invalid request body" StatusBadRequest, w)
      | Some content =>
          if String.eqb content "" then
            (Error "Content is required" StatusBadRequest, w)
          else
            match MessageUseCase.CreateComment messageID 0 "anonymous" content w with
            | (Err e, w') =>
                if String.eqb e "message not found"
                then (Error e StatusNotFound, w')
                else (Error e StatusBadRequest, w')
            | (Ok comment, w') => (Created comment, w')
            end
      end
  end.

(** [func (h *ForumHandler) DeleteComment(w, r)]. *)
Definition DeleteComment (id : option Z) (w : World) : Reply * World :=
  match id with
  | None => (Error "Invalid comment ID" StatusBadRequest, w)
  | Some commentID =>
      match MessageUseCase.DeleteComment commentID w with
      | (Err e, w') =>
          if String.eqb e "comment not found"
          then (Error e StatusNotFound, w')
          else (Error e StatusInternalServerError, w')
      | (Ok _, w') => (Status StatusOK, w')
      end
  end.

End forum_handler.

(* ===================================================================== *)
(** ** internal/delivery/http: the admin routes of Handler *)
(* ===================================================================== *)
Module http_auth.
Import domain usecase.

(** [strings.HasPrefix] and [strings.TrimPrefix]. *)
Definition HasPrefix (s prefix : string) : bool := String.prefix prefix s.

Definition TrimPrefix (s prefix : string) : string :=
  if HasPrefix s prefix
  then substring (String.length prefix) (String.length s - String.length prefix) s
  else s.

(** [http.Error(w, text, code)], or the JSON object with ["success": true]
    and a message, under 200. *)
Inductive Reply : Type :=
| Error (text : string) (code : Z)
| Success (message : string).

Definition StatusUnauthorized : Z := 401.
Definition StatusForbidden : Z := 403.
Definition StatusInternalServerError : Z := 500.

(** [func (h *Handler) authMiddleware(next)], on the Authorization header of
    the request.  [ValidateToken] is [h.authClient.ValidateToken]; the user
    it returns travels to [next] in the context of the request. *)
Definition authMiddleware (ValidateToken : string -> result User.t)
           (next : User.t -> World -> Reply * World)
           (authHeader : string) (w : World) : Reply * World :=
  if String.eqb authHeader "" then
    (Error "Authorization header required" StatusUnauthorized, w)
  else
    let token := TrimPrefix authHeader "Bearer " in
    if String.eqb token authHeader then
      (Error "Invalid authorization header format" StatusUnauthorized, w)
    else
      match ValidateToken token with
      | Err _ => (Error "Invalid token" StatusUnauthorized, w)
      | Ok user => next user w
      end.

(** [func (h *Handler) authAdminMiddleware(next)].  The user is in the
    context whenever [authMiddleware] has let the request through. *)
Definition authAdminMiddleware (ValidateToken : string -> result User.t)
           (next : World -> Reply * World)
           (authHeader : string) (w : World) : Reply * World :=
  authMiddleware ValidateToken
    (fun user w =>
       if negb (String.eqb (User.Role user) "admin") then
         (Error "Admin access required" StatusForbidden, w)
       else next w)
    authHeader w.

(** [func (h *Handler) banMessage(w, r, messageID)]. *)
Definition banMessage (messageID : Z) (w : World) : Reply * World :=
  match MessageUseCase.BanMessage messageID w with
  | (Err e, w') => (Error e StatusInternalServerError, w')
  | (Ok _, w') => (Success "Message banned successfully", w')
  end.

(** [func (h *Handler) deleteMessage(w, r, messageID)]. *)
Definition deleteMessage (messageID : Z) (w : World) : Reply * World :=
  match MessageUseCase.DeleteMessage messageID w with
  | (Err e, w') => (Error e StatusInternalServerError, w')
  | (Ok _, w') => (Success "Message deleted successfully", w')
  end.

(** [func (h *Handler) deleteComment(w, r, commentID)]. *)
Definition deleteComment (commentID : Z) (w : World) : Reply * World :=
  match MessageUseCase.DeleteComment commentID w with
  | (Err e, w') => (Error e StatusInternalServerError, w')
  | (Ok _, w') => (Success "Comment deleted successfully", w')
  end.

(** [case http.MethodDelete] of [handleMessageWithID], the id parsed:
    [action] is [r.URL.Query().Get("action")]. *)
Definition handleMessageDelete (ValidateToken : string -> result User.t)
           (action authHeader : string) (messageID : Z) (w : World)
  : Reply * World :=
  if String.eqb action "delete" then
    authAdminMiddleware ValidateToken (deleteMessage messageID) authHeader w
  else
    authAdminMiddleware ValidateToken (banMessage messageID) authHeader w.

(** [case http.MethodDelete] of [handleCommentWithID], the id parsed. *)
Definition handleCommentDelete (ValidateToken : string -> result User.t)
           (authHeader : string) (commentID : Z) (w : World) : Reply * World :=
  authAdminMiddleware ValidateToken (deleteComment commentID) authHeader w.

(** The header carries a token that the auth service gives to an admin. *)
Definition admin_header (ValidateToken : string -> result User.t)
           (authHeader : string) : Prop :=
  ∃ token user, authHeader = ("Bearer " ++ token)%string
                ∧ ValidateToken token = Ok user
                ∧ User.Role user = "admin".

End http_auth.

(* ===================================================================== *)
(** ** Blank text *)
(* ===================================================================== *)
Module text.
Import domain.

(** All of [s] is white space of one byte (so is the empty string). *)
Fixpoint blank (s : string) : bool :=
  match s with
  | EmptyString => true
  | String a s' => is_space a && blank s'
  end.

End text.

(* ===================================================================== *)
(** ** More worked inputs *)
(* ===================================================================== *)
Module examples_more.
Import domain usecase examples.

(** The tokens of the tests: one of a user, one of an admin. *)
Definition validate0 (token : string) : result User.t :=
  if String.eqb token "valid_user_token" then Ok (User.mk 1 "testuser" "user" false)
  else if String.eqb token "valid_admin_token" then Ok (User.mk 2 "admin" "admin" false)
  else Err "invalid token".

(** A hub with one session, whose queue of three holds one event. *)
Definition hub_room : ws.Hub :=
  ws.mkHub {[1%positive]} (<[1%positive := ws.mkChan ["old"] 3 false]> ∅).

End examples_more.

(* ===================================================================== *)
(** * Properties of the repository *)
(* ===================================================================== *)
Section RepositoryFacts.
Import domain repository.

Lemma GetByID_Ok id s m :
  GetByID id s = Ok m -> m ∈ messages s ∧ Message.ID m = id.
Proof.
  unfold GetByID. destruct (find (has_id id) (messages s)) as [m'|] eqn:E;
    [|discriminate].
  intros [= <-]. apply find_some in E as [Hin Hid].
  split; [by apply list_elem_of_In|]. unfold has_id in Hid. lia.
Qed.

Lemma GetByID_Err id s e :
  GetByID id s = Err e ->
  e = "message not found" ∧ ∀ m, m ∈ messages s -> Message.ID m ≠ id.
Proof.
  unfold GetByID. destruct (find (has_id id) (messages s)) eqn:E;
    [discriminate|].
  intros [= <-]. split; [done|]. intros m Hin.
  apply list_elem_of_In in Hin.
  pose proof (find_none _ _ E m Hin) as H. unfold has_id in H. lia.
Qed.

Lemma GetByID_absent id s :
  (∀ m, m ∈ messages s -> Message.ID m ≠ id) ->
  GetByID id s = Err "message not found".
Proof.
  intros H. unfold GetByID.
  destruct (find (has_id id) (messages s)) as [m|] eqn:E; [|done].
  apply find_some in E as [Hin Hid]. apply list_elem_of_In in Hin.
  unfold has_id in Hid. specialize (H m Hin). lia.
Qed.

Lemma GetByID_present id s m :
  m ∈ messages s -> Message.ID m = id -> ∃ m', GetByID id s = Ok m'.
Proof.
  intros Hin Hid. unfold GetByID.
  destruct (find (has_id id) (messages s)) as [m'|] eqn:E; [by eexists|].
  apply list_elem_of_In in Hin.
  pose proof (find_none _ _ E m Hin) as H. unfold has_id in H. lia.
Qed.

Lemma GetCommentByID_absent id s :
  (∀ c, c ∈ comments s -> Comment.ID c ≠ id) ->
  GetCommentByID id s = Err "comment not found".
Proof.
  intros H. unfold GetCommentByID.
  destruct (find (comment_has_id id) (comments s)) as [c|] eqn:E; [|done].
  apply find_some in E as [Hin Hid]. apply list_elem_of_In in Hin.
  unfold comment_has_id in Hid. specialize (H c Hin). lia.
Qed.

Lemma GetCommentByID_Ok id s c :
  GetCommentByID id s = Ok c -> c ∈ comments s ∧ Comment.ID c = id.
Proof.
  unfold GetCommentByID.
  destruct (find (comment_has_id id) (comments s)) as [c'|] eqn:E;
    [|discriminate].
  intros [= <-]. apply find_some in E as [Hin Hid].
  split; [by apply list_elem_of_In|]. unfold comment_has_id in Hid. lia.
Qed.

Lemma GetCommentByID_present s c :
  c ∈ comments s ->
  ∃ c', GetCommentByID (Comment.ID c) s = Ok c' ∧ c' ∈ comments s
        ∧ Comment.ID c' = Comment.ID c.
Proof.
  intros Hin. unfold GetCommentByID.
  destruct (find (comment_has_id (Comment.ID c)) (comments s)) as [c'|] eqn:E.
  - exists c'. apply find_some in E as [Hin' Hid].
    split; [done|]. split; [by apply list_elem_of_In|].
    unfold comment_has_id in Hid. lia.
  - apply list_elem_of_In in Hin.
    pose proof (find_none _ _ E c Hin) as H. unfold comment_has_id in H. lia.
Qed.

(** With unique ids, the row found by id is the row itself. *)
Lemma GetCommentByID_unique s c :
  valid s -> c ∈ comments s -> GetCommentByID (Comment.ID c) s = Ok c.
Proof.
  intros (_ & Hnd & _) Hin.
  destruct (GetCommentByID_present s c Hin) as (c' & -> & Hin' & Hid).
  f_equal. revert Hnd Hin Hin' Hid. generalize (comments s) as l.
  induction l as [|x l IH]; [by intros _ ?%elem_of_nil|].
  rewrite fmap_cons, NoDup_cons, !elem_of_cons.
  intros [Hx Hnd] [->|Hc] [->|Hc'] Hid; try done.
  - exfalso. apply Hx. rewrite <- Hid. by apply list_elem_of_fmap_2.
  - exfalso. apply Hx. rewrite Hid. by apply list_elem_of_fmap_2.
  - by apply IH.
Qed.

Lemma GetAllMessages_elem s m : m ∈ GetAllMessages s ↔ m ∈ messages s.
Proof.
  unfold GetAllMessages, order_by_created_at_desc.
  by rewrite merge_sort_Permutation.
Qed.

#[global] Instance newer_first_total : Total newer_first.
Proof. intros a b. unfold newer_first. lia. Qed.

#[global] Instance newer_first_trans : Transitive newer_first.
Proof. intros a b c. unfold newer_first. lia. Qed.

#[global] Instance older_first_total : Total older_first.
Proof. intros a b. unfold older_first. lia. Qed.

#[global] Instance older_first_trans : Transitive older_first.
Proof. intros a b c. unfold older_first. lia. Qed.

(** [GetAllMessages] is newest first. *)
Lemma GetAllMessages_newest_first s :
  StronglySorted newer_first (GetAllMessages s).
Proof. apply StronglySorted_merge_sort; apply _. Qed.

(** The count of [List] is the number of rows of the table: the COUNT
    statement has no WHERE clause. *)
Lemma List_total limit offset s :
  snd (List limit offset s) = Z.of_nat (length (messages s)).
Proof. reflexivity. Qed.

(** With room for every row, [List] returns what [GetAllMessages] does:
    the SELECT has no WHERE clause either. *)
Lemma List_all limit s :
  Z.of_nat (length (messages s)) <= limit ->
  fst (List limit 0 s) = GetAllMessages s.
Proof.
  intros H. unfold List, GetAllMessages, limit_offset. simpl.
  destruct (limit <? 0) eqn:E; [by rewrite drop_0|].
  rewrite drop_0. apply take_ge.
  unfold order_by_created_at_desc. rewrite merge_sort_Permutation. lia.
Qed.

(** *** The invariant of the tables *)

Lemma valid_empty : valid empty.
Proof. repeat split; simpl; constructor. Qed.

Lemma valid_Create now message s :
  valid s -> valid (snd (Create now message s)).
Proof.
  intros (Hm & Hc & Hms & Hcs). unfold Create, valid. simpl.
  repeat split; [|done| |done].
  - rewrite fmap_app. simpl. apply NoDup_app. split; [done|].
    split; [|apply NoDup_singleton].
    intros x Hx ->%list_elem_of_singleton.
    apply list_elem_of_fmap in Hx as (m & Hid & Hin).
    rewrite Forall_forall in Hms. specialize (Hms m Hin). simpl in Hms. lia.
  - apply Forall_app. split.
    + eapply Forall_impl; [exact Hms|]. simpl. intros; lia.
    + constructor; [simpl; lia|constructor].
Qed.

Lemma valid_CreateComment now comment s :
  valid s -> valid (snd (CreateComment now comment s)).
Proof.
  intros (Hm & Hc & Hms & Hcs). unfold CreateComment.
  destruct (GetByID _ s); [|done]. unfold valid. simpl.
  repeat split; [done| |done|].
  - rewrite fmap_app. simpl. apply NoDup_app. split; [done|].
    split; [|apply NoDup_singleton].
    intros x Hx ->%list_elem_of_singleton.
    apply list_elem_of_fmap in Hx as (m & Hid & Hin).
    rewrite Forall_forall in Hcs. specialize (Hcs m Hin). simpl in Hcs. lia.
  - apply Forall_app. split.
    + eapply Forall_impl; [exact Hcs|]. simpl. intros; lia.
    + constructor; [simpl; lia|constructor].
Qed.

Lemma NoDup_fmap_filter {A B} (f : A -> B) (P : A -> Prop)
      `{!∀ x, Decision (P x)} (l : list A) :
  NoDup (f <$> l) -> NoDup (f <$> filter P l).
Proof.
  induction l as [|x l IH]; [done|].
  rewrite fmap_cons, NoDup_cons. intros [Hx Hnd].
  rewrite filter_cons. destruct (decide (P x)); [|by apply IH].
  rewrite fmap_cons, NoDup_cons. split; [|by apply IH].
  intros (y & Hy & Hin)%list_elem_of_fmap.
  apply list_elem_of_filter in Hin as [_ Hin].
  apply Hx. rewrite Hy. by apply list_elem_of_fmap_2.
Qed.

Lemma Forall_filter_keep {A} (Q P : A -> Prop)
      `{!∀ x, Decision (P x)} (l : list A) :
  Forall Q l -> Forall Q (filter P l).
Proof.
  rewrite !Forall_forall. intros HQ x [_ Hin]%list_elem_of_filter. by apply HQ.
Qed.

Lemma valid_Delete id s : valid s -> valid (Delete id s).
Proof.
  intros (Hm & Hc & Hms & Hcs). unfold Delete, valid. simpl.
  repeat split; auto using NoDup_fmap_filter, Forall_filter_keep.
Qed.

Lemma valid_DeleteComment id s : valid s -> valid (DeleteComment id s).
Proof.
  intros (Hm & Hc & Hms & Hcs). unfold DeleteComment, valid. simpl.
  repeat split; auto using NoDup_fmap_filter, Forall_filter_keep.
Qed.

Lemma valid_DeleteExpiredComments now s :
  valid s -> valid (snd (DeleteExpiredComments now s)).
Proof.
  intros (Hm & Hc & Hms & Hcs). unfold DeleteExpiredComments, valid. simpl.
  repeat split; auto using NoDup_fmap_filter, Forall_filter_keep.
Qed.

Lemma set_banned_ID id b m : Message.ID (set_banned id b m) = Message.ID m.
Proof. unfold set_banned. by destruct (has_id id m). Qed.

Lemma fmap_ID_set_banned id b (l : list Message.t) :
  Message.ID <$> (map (set_banned id b) l) = Message.ID <$> l.
Proof.
  induction l as [|x l IH]; [done|].
  csimpl. by rewrite set_banned_ID, IH.
Qed.

Lemma valid_set_banned id b s :
  valid s ->
  valid (mkStore (map (set_banned id b) (messages s)) (comments s)
                 (messages_seq s) (comments_seq s)).
Proof.
  intros (Hm & Hc & Hms & Hcs). unfold valid. simpl.
  repeat split; [by rewrite fmap_ID_set_banned|done| |done].
  rewrite Forall_forall in Hms. apply Forall_forall.
  intros m Hin%list_elem_of_In%in_map_iff. destruct Hin as (m0 & <- & Hin).
  rewrite set_banned_ID. apply Hms. by apply list_elem_of_In.
Qed.

End RepositoryFacts.

(* ===================================================================== *)
(** * The tables stay well formed *)
(* ===================================================================== *)
Section Reachable.
Import domain repository usecase.

(** No call of the use case breaks the invariant of the tables. *)
Lemma perform_valid w c : valid (repo w) -> valid (repo (perform w c)).
Proof.
  intros Hv. destruct c as [userID username content|id|id|id
                           |messageID userID username content|id| |t]; simpl.
  - unfold MessageUseCase.CreateMessage.
    destruct (String.eqb content ""); [done|].
    unfold bind, auth_GetUser. destruct (negb (userID =? 0)); simpl.
    + destruct (auth w userID) as [u|e]; simpl; [|done].
      destruct (User.IsBanned u); simpl; [done|].
      apply (valid_Create (clock w) _ (repo w) Hv).
    + apply (valid_Create (clock w) _ (repo w) Hv).
  - unfold MessageUseCase.BanMessage, bind, repo_GetByID.
    destruct (GetByID id (repo w)); simpl; [|done].
    by apply valid_set_banned.
  - unfold MessageUseCase.UnbanMessage, bind, repo_GetByID.
    destruct (GetByID id (repo w)); simpl; [|done].
    by apply valid_set_banned.
  - unfold MessageUseCase.DeleteMessage, bind, repo_GetByID.
    destruct (GetByID id (repo w)); simpl; [|done].
    by apply valid_Delete.
  - unfold MessageUseCase.CreateComment.
    destruct (String.eqb content ""); [done|].
    unfold bind, auth_GetUser, repo_CreateComment. simpl.
    pose proof (valid_CreateComment (clock w)
                  (Comment.mk 0 messageID userID username content (clock w)
                              zero_time) (repo w) Hv) as Hc.
    destruct (negb (userID =? 0)); simpl.
    + destruct (auth w userID) as [u|e]; simpl; [|done].
      destruct (User.IsBanned u); simpl; [done|].
      destruct (CreateComment _ _ (repo w)) as [[[]|] ?]; simpl in *; done.
    + destruct (CreateComment _ _ (repo w)) as [[[]|] ?]; simpl in *; done.
  - unfold MessageUseCase.DeleteComment, bind, repo_GetCommentByID.
    destruct (GetCommentByID id (repo w)); simpl; [|done].
    by apply valid_DeleteComment.
  - apply (valid_DeleteExpiredComments (clock w) (repo w) Hv).
  - done.
Qed.

(** So every database the use case can reach from a well-formed one, the
    empty one for instance, is well formed. *)
Lemma reachable_valid calls w :
  valid (repo w) -> valid (repo (foldl perform w calls)).
Proof.
  revert w. induction calls as [|c calls IH]; intros w Hv; [done|].
  simpl. by apply IH, perform_valid.
Qed.

End Reachable.

(* ===================================================================== *)
(** * Reading messages and comments *)
(* ===================================================================== *)
Section Reads.
Import domain repository usecase examples.

Lemma valid_world_later : valid (repo world_later).
Proof. apply (bool_decide_unpack _). vm_compute. exact I. Qed.

Lemma GetComments_elem now messageID s cs c :
  GetComments now messageID s = Ok cs ->
  c ∈ cs ↔
  c ∈ comments s ∧ Comment.MessageID c = messageID ∧ now < Comment.ExpiresAt c.
Proof.
  unfold GetComments. destruct (GetByID messageID s); [|discriminate].
  intros [= <-]. unfold order_by_created_at_asc.
  rewrite merge_sort_Permutation, list_elem_of_filter.
  unfold comment_of, live. split.
  - intros [H Hin]. apply andb_prop in H as [H1 H2]. repeat split; [done|lia|lia].
  - intros (Hin & H1 & H2). split; [|done]. apply andb_true_intro. split; lia.
Qed.

(** [GetComments] is oldest first. *)
Lemma GetComments_oldest_first now messageID s cs :
  GetComments now messageID s = Ok cs -> StronglySorted older_first cs.
Proof.
  unfold GetComments. destruct (GetByID messageID s); [|discriminate].
  intros [= <-]. apply StronglySorted_merge_sort; apply _.
Qed.

End Reads.

(** C1, at the input where the code leaves the claim.  An anonymous "Hello"
    is created and then banned; [GetMessages(10, 0)] still returns the
    banned message, and counts it: the result is the list with that message
    and the total 1, where the claim has the empty list and 0. *)
Theorem getMessages_returns_banned_message :
  fst (usecase.bind (usecase.MessageUseCase.CreateMessage 0 "anonymous" "Hello")
         (fun _ => usecase.bind (usecase.MessageUseCase.BanMessage 1)
         (fun _ => usecase.MessageUseCase.GetMessages 10 0))
         examples.world0)
  = Ok ([domain.Message.with_IsBanned examples.hello true], 1).
Proof. vm_compute. reflexivity. Qed.

(** C2 as stated fails for [GetCommentByID]: half a minute after "Nice!" has
    expired, and before the next sweep, the comment is read back by its id
    although the clock is past its expiry. *)
Lemma getCommentById_returns_expired_comment :
  fst (usecase.repo_GetCommentByID 1 examples.world_later) = Ok examples.nice
  ∧ domain.Comment.ExpiresAt examples.nice <= usecase.clock examples.world_later.
Proof. split; vm_compute; [reflexivity|discriminate]. Qed.

(** C2, amended.  Whatever is stored, swept or not, [GetComments] returns no
    comment with [now >= expiresAt]: for a stored message it returns the
    comments of that message with [now < expiresAt], all of them and no
    other.  [GetCommentByID] returns the stored comment with the id asked
    for, whatever its expiry. *)
Theorem comment_reads_and_expiry (now : Z) (s : repository.Store) :
  repository.valid s ->
  (∀ messageID cs c,
      repository.GetComments now messageID s = Ok cs -> c ∈ cs ->
      now < domain.Comment.ExpiresAt c)
  ∧ (∀ messageID m,
        repository.GetByID messageID s = Ok m ->
        ∃ cs, repository.GetComments now messageID s = Ok cs
          ∧ ∀ c, c ∈ cs ↔
                 c ∈ repository.comments s
                 ∧ domain.Comment.MessageID c = messageID
                 ∧ now < domain.Comment.ExpiresAt c)
  ∧ (∀ c, c ∈ repository.comments s ->
          repository.GetCommentByID (domain.Comment.ID c) s = Ok c).
Proof.
  intros Hv. split; [|split].
  - intros messageID cs c Hget Hin.
    by apply (GetComments_elem _ _ _ _ c Hget) in Hin as (_ & _ & ?).
  - intros messageID m Hm.
    destruct (repository.GetComments now messageID s) as [cs|e] eqn:Hget.
    + exists cs. split; [done|]. intros c. by apply GetComments_elem.
    + unfold repository.GetComments in Hget. by rewrite Hm in Hget.
  - intros c Hin. by apply GetCommentByID_unique.
Qed.

(** On the worked database: the expired "Nice!" is read back by its id. *)
Lemma comment_reads_and_expiry_witness :
  repository.GetCommentByID (domain.Comment.ID examples.nice)
    (usecase.repo examples.world_later) = Ok examples.nice.
Proof.
  apply (proj2 (proj2 (comment_reads_and_expiry 1330
                         (usecase.repo examples.world_later)
                         valid_world_later)) examples.nice).
  vm_compute. apply list_elem_of_here.
Defined.

(* ===================================================================== *)
(** * The sweep of expired comments *)
(* ===================================================================== *)
Section Sweep.
Import domain repository usecase.

Lemma expired_false now c : expired now c = false ↔ now < Comment.ExpiresAt c.
Proof. unfold expired. lia. Qed.

Lemma sweep_comments now s :
  comments (snd (DeleteExpiredComments now s))
  = filter (fun c => expired now c = false) (comments s).
Proof. reflexivity. Qed.

(** The rows a sweep removes are the expired ones, one for one. *)
Lemma sweep_length now s :
  length (comments s)
  = (length (comments (snd (DeleteExpiredComments now s)))
     + expired_count now s)%nat.
Proof.
  rewrite sweep_comments. unfold expired_count.
  induction (comments s) as [|c l IH]; [done|].
  rewrite !filter_cons. destruct (expired now c) eqn:E.
  - rewrite decide_False by done. rewrite decide_True by done. simpl. lia.
  - rewrite decide_True by done. rewrite decide_False by done. simpl. lia.
Qed.

(** A sweep after a sweep, the clock not behind the first one, leaves
    what one sweep at the later time leaves. *)
Lemma sweep_sweep now now' s :
  now <= now' ->
  snd (DeleteExpiredComments now' (snd (DeleteExpiredComments now s)))
  = snd (DeleteExpiredComments now' s).
Proof.
  intros Hle. unfold DeleteExpiredComments. simpl. f_equal.
  rewrite list_filter_filter. apply list_filter_iff.
  intros c. rewrite !expired_false. lia.
Qed.

Lemma sweep_idem now s :
  DeleteExpiredComments now (snd (DeleteExpiredComments now s))
  = DeleteExpiredComments now s.
Proof.
  pose proof (sweep_sweep now now s (Z.le_refl _)) as H.
  unfold DeleteExpiredComments in *. simpl in *. by rewrite H.
Qed.

Lemma sweep_none_left now s :
  expired_count now (snd (DeleteExpiredComments now s)) = 0%nat.
Proof.
  unfold expired_count. rewrite sweep_comments, list_filter_filter.
  induction (comments s) as [|c l IH]; [done|].
  rewrite filter_cons. destruct (decide _) as [[H1 H2]|_]; [congruence|done].
Qed.

End Sweep.

(** C6 as stated fails in its last part: the sweep returns no count.  One
    world holds an expired comment and the other holds none; the sweep
    removes one row there and none here, and returns the same [nil] error
    in both. *)
Lemma expireComments_returns_no_count :
  fst (usecase.MessageUseCase.CleanupExpiredComments examples.world_later)
  = fst (usecase.MessageUseCase.CleanupExpiredComments examples.world_hello)
  ∧ repository.expired_count (usecase.clock examples.world_later)
      (usecase.repo examples.world_later) = 1%nat
  ∧ repository.expired_count (usecase.clock examples.world_hello)
      (usecase.repo examples.world_hello) = 0%nat.
Proof. split; [|split]; vm_compute; reflexivity. Qed.

(** C6, amended.  [CleanupExpiredComments] returns only the [nil] error; it
    leaves the messages alone and keeps exactly the comments with
    [now < expiresAt], so it removes as many rows as have expired; a second
    sweep at the same clock removes nothing and leaves the same database. *)
Theorem expireComments_sweeps_expired (w : usecase.World) :
  let now := usecase.clock w in
  let run := usecase.MessageUseCase.CleanupExpiredComments w in
  let s := usecase.repo w in
  let s' := usecase.repo (snd run) in
  fst run = Ok tt
  ∧ repository.messages s' = repository.messages s
  ∧ (∀ c, c ∈ repository.comments s' ↔
          c ∈ repository.comments s ∧ now < domain.Comment.ExpiresAt c)
  ∧ length (repository.comments s)
    = (length (repository.comments s') + repository.expired_count now s)%nat
  ∧ repository.expired_count now s' = 0%nat
  ∧ usecase.repo (snd (usecase.MessageUseCase.CleanupExpiredComments (snd run)))
    = s'.
Proof.
  cbv zeta.
  unfold usecase.MessageUseCase.CleanupExpiredComments,
    usecase.repo_DeleteExpiredComments. simpl.
  split; [reflexivity|]. split; [reflexivity|].
  split; [|split; [|split]].
  - intros c. rewrite list_elem_of_filter, expired_false. tauto.
  - apply (sweep_length (usecase.clock w) (usecase.repo w)).
  - apply (sweep_none_left (usecase.clock w) (usecase.repo w)).
  - pose proof (sweep_idem (usecase.clock w) (usecase.repo w)) as H.
    unfold repository.DeleteExpiredComments in H. simpl in H.
    by injection H as ->.
Qed.

(* ===================================================================== *)
(** * Deleting a message *)
(* ===================================================================== *)

(** C7.  When a message with the id is stored, [DeleteMessage] succeeds;
    afterwards the message is not found, and neither is any comment that had
    it for parent; the comments of other messages are still found. *)
Theorem deleteMessage_cascades (w : usecase.World) (id : Z) (m : domain.Message.t) :
  repository.valid (usecase.repo w) ->
  repository.GetByID id (usecase.repo w) = Ok m ->
  ∃ w', usecase.MessageUseCase.DeleteMessage id w = (Ok tt, w')
    ∧ repository.GetByID id (usecase.repo w') = Err "message not found"
    ∧ (∀ c, c ∈ repository.comments (usecase.repo w) ->
            domain.Comment.MessageID c = id ->
            repository.GetCommentByID (domain.Comment.ID c) (usecase.repo w')
            = Err "comment not found")
    ∧ (∀ c, c ∈ repository.comments (usecase.repo w) ->
            domain.Comment.MessageID c ≠ id ->
            repository.GetCommentByID (domain.Comment.ID c) (usecase.repo w')
            = Ok c).
Proof.
  intros Hv Hget.
  unfold usecase.MessageUseCase.DeleteMessage, usecase.bind,
    usecase.repo_GetByID, usecase.repo_Delete, usecase.ret. simpl.
  rewrite Hget. eexists. split; [reflexivity|]. simpl.
  split; [|split].
  - apply GetByID_absent. simpl.
    intros m' [Hid _]%list_elem_of_filter. unfold repository.has_id in Hid. lia.
  - intros c Hin Hpar. apply GetCommentByID_absent. simpl.
    intros c' [Hne Hin']%list_elem_of_filter Hid.
    unfold repository.comment_of in Hne.
    assert (c' = c) as ->; [|lia].
    pose proof (GetCommentByID_unique _ _ Hv Hin) as H1.
    pose proof (GetCommentByID_unique _ _ Hv Hin') as H2.
    rewrite Hid in H2. congruence.
  - intros c Hin Hpar.
    apply (GetCommentByID_unique (repository.Delete id (usecase.repo w)) c).
    + by apply valid_Delete.
    + simpl. apply list_elem_of_filter. split; [|done].
      unfold repository.comment_of. lia.
Qed.

(** On the worked database: deleting "Hello" takes "Nice!" with it. *)
Lemma deleteMessage_cascades_witness :
  ∃ w', usecase.MessageUseCase.DeleteMessage 1 examples.world_later = (Ok tt, w')
    ∧ repository.GetByID 1 (usecase.repo w') = Err "message not found"
    ∧ repository.GetCommentByID 1 (usecase.repo w') = Err "comment not found".
Proof.
  destruct (deleteMessage_cascades examples.world_later 1 examples.hello
              valid_world_later eq_refl) as (w' & H1 & H2 & H3 & _).
  exists w'. split; [exact H1|]. split; [exact H2|].
  apply (H3 examples.nice); [vm_compute; apply list_elem_of_here|reflexivity].
Defined.

(* ===================================================================== *)
(** * Comments of a message that is not there *)
(* ===================================================================== *)

(** C10.  [GetComments] looks the message up first.  When no stored message
    has the id, the answer is the error "message not found" (and the handler
    answers 500 with that text), whatever the comments table holds; a
    deleted message answers as one that never existed; a stored message
    none of whose comments is live answers with the empty list. *)
Theorem getComments_of_missing_message (w : usecase.World) (messageID : Z) :
  let s := usecase.repo w in
  ((∀ m, m ∈ repository.messages s -> domain.Message.ID m ≠ messageID) ->
     fst (usecase.MessageUseCase.GetComments messageID w) = Err "message not found"
     ∧ fst (http.getComments messageID w)
       = http.Error "message not found" http.StatusInternalServerError)
  ∧ (fst (usecase.MessageUseCase.GetComments messageID
            (usecase.set_repo (repository.Delete messageID s) w))
     = fst (usecase.MessageUseCase.GetComments messageID
              (usecase.set_repo repository.empty w)))
  ∧ (∀ m, repository.GetByID messageID s = Ok m ->
          (∀ c, c ∈ repository.comments s ->
                domain.Comment.MessageID c = messageID ->
                domain.Comment.ExpiresAt c <= usecase.clock w) ->
          fst (usecase.MessageUseCase.GetComments messageID w) = Ok []
          ∧ fst (http.getComments messageID w) = http.JSON []).
Proof.
  cbv zeta. split; [|split].
  - intros Habs.
    unfold http.getComments, usecase.MessageUseCase.GetComments,
      usecase.repo_GetComments, repository.GetComments. simpl.
    by rewrite (GetByID_absent _ _ Habs).
  - unfold usecase.MessageUseCase.GetComments, usecase.repo_GetComments,
      repository.GetComments. simpl.
    rewrite GetByID_absent; [done|]. simpl.
    intros m [Hid _]%list_elem_of_filter. unfold repository.has_id in Hid. lia.
  - intros m Hget Hdead.
    unfold http.getComments, usecase.MessageUseCase.GetComments,
      usecase.repo_GetComments, repository.GetComments. simpl.
    rewrite Hget.
    assert (filter (fun c => repository.comment_of messageID c
                             && repository.live (usecase.clock w) c = true)
                   (repository.comments (usecase.repo w)) = []) as ->; [|done].
    induction (repository.comments (usecase.repo w)) as [|c l IH]; [done|].
    rewrite filter_cons. destruct (decide _) as [H|_].
    + apply andb_prop in H as [H1 H2].
      unfold repository.comment_of, repository.live in *.
      specialize (Hdead c (list_elem_of_here _ _)). lia.
    + apply IH. intros c' Hin. apply Hdead. by apply list_elem_of_further.
Qed.

(** On the worked database: message 7 is not there; message 1 is, and its
    only comment has expired. *)
Lemma getComments_of_missing_message_witness :
  fst (usecase.MessageUseCase.GetComments 7 examples.world_later)
  = Err "message not found"
  ∧ fst (usecase.MessageUseCase.GetComments 1 examples.world_later) = Ok [].
Proof.
  pose proof (getComments_of_missing_message examples.world_later 7) as (H & _ & _).
  pose proof (getComments_of_missing_message examples.world_later 1) as (_ & _ & H').
  split.
  - apply H. intros m ->%list_elem_of_singleton. discriminate.
  - apply (H' examples.hello eq_refl).
    intros c ->%list_elem_of_singleton _. discriminate.
Defined.

(* ===================================================================== *)
(** * Creating messages and comments *)
(* ===================================================================== *)
Section Create.
Import domain repository usecase.

(** Empty content is turned down before anything is called. *)
Lemma CreateMessage_empty userID username w :
  MessageUseCase.CreateMessage userID username "" w
  = (Err "content is required", w).
Proof. reflexivity. Qed.

Lemma CreateComment_empty messageID userID username w :
  MessageUseCase.CreateComment messageID userID username "" w
  = (Err "content is required", w).
Proof. reflexivity. Qed.

Lemma eqb_empty_false content : content ≠ "" -> String.eqb content "" = false.
Proof. intros H. by apply String.eqb_neq. Qed.

(** What [CreateMessage] does once the content is not empty and the
    author has passed: one [Create], one broadcast. *)
Lemma CreateMessage_anonymous username content w :
  content ≠ "" ->
  let m := new_message 0 username content w in
  MessageUseCase.CreateMessage 0 username content w
  = (Ok m,
     mkWorld (mkStore (messages (repo w) ++ [m]) (comments (repo w))
                      (messages_seq (repo w) + 1) (comments_seq (repo w)))
             (auth w) (clock w)
             ((trace w
               ++ [Repo (OpCreate (Message.mk 0 0 username content (clock w) false))])
              ++ [Broadcast m])).
Proof.
  intros H. unfold MessageUseCase.CreateMessage.
  rewrite (eqb_empty_false _ H). reflexivity.
Qed.

End Create.

(** C3, at inputs where the code leaves the claim.  A text of 1001 letters
    is over the bound ([Validate] calls it too long), and [CreateMessage]
    stores and broadcasts it all the same; so it does with a text of three
    spaces, which [Validate] calls empty; and [CreateComment] stores a
    comment of 501 letters.  Neither function calls [Validate]: they turn
    down the empty string and nothing else. *)
Theorem createMessage_stores_overlong_content :
  let content := examples.letters 1001 in
  let m := usecase.new_message 0 "anonymous" content examples.world0 in
  let run := usecase.MessageUseCase.CreateMessage 0 "anonymous" content
               examples.world0 in
  let blank := usecase.new_message 0 "anonymous" "   " examples.world0 in
  let run_blank := usecase.MessageUseCase.CreateMessage 0 "anonymous" "   "
                     examples.world0 in
  let reply := examples.letters 501 in
  let c := usecase.new_comment 1 0 "anonymous" reply examples.world_hello in
  let run' := usecase.MessageUseCase.CreateComment 1 0 "anonymous" reply
                examples.world_hello in
  domain.Message_Validate m = Some "content too long"
  ∧ fst run = Ok m
  ∧ repository.messages (usecase.repo (snd run)) = [m]
  ∧ filter (fun ev => usecase.is_broadcast ev = true) (usecase.trace (snd run))
    = [usecase.Broadcast m]
  ∧ domain.Message_Validate blank = Some "content cannot be empty"
  ∧ fst run_blank = Ok blank
  ∧ repository.messages (usecase.repo (snd run_blank)) = [blank]
  ∧ domain.Comment_Validate c = Some "comment too long"
  ∧ fst run' = Ok c
  ∧ repository.comments (usecase.repo (snd run')) = [c].
Proof. cbv zeta. repeat split; vm_compute; reflexivity. Qed.

(** The author's lookup in [MessageUseCase] of message_usecase.go.  With
    content that is not empty: for a user id other than 0, [CreateMessage]
    and [CreateComment] call the auth service first, once, and when the user
    cannot be resolved or is banned they return the error having called
    nothing else, so nothing is stored; for user id 0 they never call the
    auth service, the message is stored, and the comment is stored when its
    message exists. *)
Lemma MessageUseCase_create_looks_author_up
  (w : usecase.World) (messageID userID : Z) (username content : string) :
  content ≠ "" ->
  let lookup := usecase.AuthGetUser userID in
  let no_lookup := Forall (fun ev => usecase.is_lookup ev = false) in
  let cm := usecase.MessageUseCase.CreateMessage userID username content in
  let cc := usecase.MessageUseCase.CreateComment messageID userID username content in
  (userID ≠ 0 ->
     (∃ rest, usecase.made cm w (lookup :: rest) ∧ no_lookup rest)
     ∧ (∃ rest, usecase.made cc w (lookup :: rest) ∧ no_lookup rest)
     ∧ (∀ e, usecase.auth w userID = Err e ->
             cm w = (Err e, usecase.log lookup w)
             ∧ cc w = (Err e, usecase.log lookup w))
     ∧ (∀ user, usecase.auth w userID = Ok user ->
                domain.User.IsBanned user = true ->
                cm w = (Err "user is banned", usecase.log lookup w)
                ∧ cc w = (Err "user is banned", usecase.log lookup w)))
  ∧ (userID = 0 ->
     (∃ evs, usecase.made cm w evs ∧ no_lookup evs)
     ∧ (∃ evs, usecase.made cc w evs ∧ no_lookup evs)
     ∧ fst (cm w) = Ok (usecase.new_message 0 username content w)
     ∧ (∀ m, repository.GetByID messageID (usecase.repo w) = Ok m ->
             fst (cc w) = Ok (usecase.new_comment messageID 0 username content w))).
Proof.
  intros Hc. cbv zeta. split.
  - intros Hu. apply Z.eqb_neq in Hu.
    unfold usecase.made, usecase.MessageUseCase.CreateMessage,
      usecase.MessageUseCase.CreateComment.
    rewrite (eqb_empty_false _ Hc), Hu. simpl.
    unfold usecase.bind, usecase.auth_GetUser, usecase.repo_CreateComment,
      repository.CreateComment.
    destruct (usecase.auth w userID) as [user|e] eqn:Ha; simpl.
    + destruct (domain.User.IsBanned user) eqn:Hb; simpl.
      * split; [by exists []|]. split; [by exists []|].
        split; [by intros e [=]|]. by intros user' [= <-] _.
      * destruct (repository.GetByID messageID (usecase.repo w)); simpl;
          (split; [eexists; split;
                   [by rewrite <- !app_assoc | by repeat constructor]|]);
          (split; [eexists; split;
                   [by rewrite <- ?app_assoc | by repeat constructor]|]);
          (split; [by intros e' [=]|]); intros user' [= <-]; congruence.
    + split; [by exists []|]. split; [by exists []|].
      split; [by intros e' [= <-]|]. by intros user' [=].
  - intros ->.
    unfold usecase.made, usecase.MessageUseCase.CreateMessage,
      usecase.MessageUseCase.CreateComment.
    rewrite (eqb_empty_false _ Hc). simpl.
    unfold usecase.bind, usecase.repo_CreateComment, repository.CreateComment.
    simpl. split; [eexists; split;
                   [by rewrite <- !app_assoc | by repeat constructor]|].
    split.
    + destruct (repository.GetByID messageID (usecase.repo w)); simpl;
        (eexists; split; [reflexivity | by repeat constructor]).
    + split; [reflexivity|]. by intros m ->.
Qed.

(** With the worked auth service: the banned user 3 and the unknown user 999
    are turned down after the lookup; the anonymous comment goes through. *)
Lemma MessageUseCase_create_looks_author_up_witness :
  usecase.MessageUseCase.CreateMessage 3 "banned" "Banned user message"
    examples.world_hello
  = (Err "user is banned", usecase.log (usecase.AuthGetUser 3) examples.world_hello)
  ∧ usecase.MessageUseCase.CreateMessage 999 "nonexistent" "Valid content"
      examples.world_hello
    = (Err "user not found",
       usecase.log (usecase.AuthGetUser 999) examples.world_hello)
  ∧ fst (usecase.MessageUseCase.CreateComment 1 0 "anonymous" "Anonymous comment"
           examples.world_hello)
    = Ok (usecase.new_comment 1 0 "anonymous" "Anonymous comment"
            examples.world_hello).
Proof.
  split; [|split].
  - refine (proj1 (proj2 (proj2 (proj2 (proj1
      (MessageUseCase_create_looks_author_up examples.world_hello 1 3 "banned"
         "Banned user message" _) _))) _ eq_refl eq_refl)); discriminate.
  - refine (proj1 (proj1 (proj2 (proj2 (proj1
      (MessageUseCase_create_looks_author_up examples.world_hello 1 999 "nonexistent"
         "Valid content" _) _))) _ eq_refl)); discriminate.
  - refine (proj2 (proj2 (proj2 (proj2
      (MessageUseCase_create_looks_author_up examples.world_hello 1 0 "anonymous"
         "Anonymous comment" _) eq_refl))) examples.hello eq_refl); discriminate.
Defined.

(* ===================================================================== *)
(** * Banning and unbanning a message *)
(* ===================================================================== *)
Section Ban.
Import domain repository usecase.

Lemma has_id_set_banned id id' b m :
  has_id id' (set_banned id b m) = has_id id' m.
Proof. unfold has_id. by rewrite set_banned_ID. Qed.

Lemma find_set_banned id id' b (l : list Message.t) :
  find (has_id id') (map (set_banned id b) l)
  = set_banned id b <$> find (has_id id') l.
Proof.
  induction l as [|x l IH]; [done|]. simpl.
  rewrite has_id_set_banned. by destruct (has_id id' x).
Qed.

(** The row with the id gets the flag; every other row reads as before. *)
Lemma GetByID_set_banned id id' b s :
  GetByID id' (mkStore (map (set_banned id b) (messages s)) (comments s)
                       (messages_seq s) (comments_seq s))
  = match GetByID id' s with
    | Ok m => Ok (if decide (id' = id) then Message.with_IsBanned m b else m)
    | Err e => Err e
    end.
Proof.
  unfold GetByID. simpl. rewrite find_set_banned.
  destruct (find (has_id id') (messages s)) as [m|] eqn:E; [|done]. simpl.
  apply find_some in E as [_ Hid]. unfold set_banned, has_id in *.
  destruct (decide (id' = id)) as [->|Hne].
  - by rewrite Hid.
  - destruct (Message.ID m =? id) eqn:E'; [lia|done].
Qed.

End Ban.

(** [BanMessage] and [UnbanMessage] of [MessageUseCase]
    (message_usecase.go) look the message up first.  When no stored message
    has the id they return "message not found", having written nothing and
    broadcast nothing.  Otherwise they succeed: the stored message is the
    one found before with [IsBanned] true (false after unban), every other
    message reads as before, and the one broadcast carries the message with
    the new flag. *)
Lemma MessageUseCase_BanMessage_looks_up (w : usecase.World) (id : Z) :
  let ban := usecase.MessageUseCase.BanMessage id in
  let unban := usecase.MessageUseCase.UnbanMessage id in
  let lookup := usecase.Repo (usecase.OpGetByID id) in
  ((∀ m, m ∈ repository.messages (usecase.repo w) -> domain.Message.ID m ≠ id) ->
     ban w = (Err "message not found", usecase.log lookup w)
     ∧ unban w = (Err "message not found", usecase.log lookup w))
  ∧ (∀ m, repository.GetByID id (usecase.repo w) = Ok m ->
       (fst (ban w) = Ok tt
        ∧ (∃ m', repository.GetByID id (usecase.repo (snd (ban w))) = Ok m'
             ∧ domain.Message.IsBanned m' = true
             ∧ domain.Message.ID m' = id
             ∧ domain.Message.UserID m' = domain.Message.UserID m
             ∧ domain.Message.Username m' = domain.Message.Username m
             ∧ domain.Message.Content m' = domain.Message.Content m
             ∧ domain.Message.CreatedAt m' = domain.Message.CreatedAt m
             ∧ usecase.made ban w
                 [lookup; usecase.Repo (usecase.OpBan id); usecase.Broadcast m'])
        ∧ (∀ id', id' ≠ id ->
             repository.GetByID id' (usecase.repo (snd (ban w)))
             = repository.GetByID id' (usecase.repo w)))
       ∧ (fst (unban w) = Ok tt
          ∧ (∃ m', repository.GetByID id (usecase.repo (snd (unban w))) = Ok m'
               ∧ domain.Message.IsBanned m' = false
               ∧ domain.Message.ID m' = id
               ∧ domain.Message.UserID m' = domain.Message.UserID m
               ∧ domain.Message.Username m' = domain.Message.Username m
               ∧ domain.Message.Content m' = domain.Message.Content m
               ∧ domain.Message.CreatedAt m' = domain.Message.CreatedAt m
               ∧ usecase.made unban w
                   [lookup; usecase.Repo (usecase.OpUnban id);
                    usecase.Broadcast m'])
          ∧ (∀ id', id' ≠ id ->
               repository.GetByID id' (usecase.repo (snd (unban w)))
               = repository.GetByID id' (usecase.repo w)))).
Proof.
  cbv zeta. split.
  - intros Habs. apply GetByID_absent in Habs.
    unfold usecase.MessageUseCase.BanMessage, usecase.MessageUseCase.UnbanMessage,
      usecase.bind, usecase.repo_GetByID.
    by rewrite Habs.
  - intros m Hget.
    assert (domain.Message.ID m = id) as Hid.
    { unfold repository.GetByID in Hget.
      destruct (find (repository.has_id id) (repository.messages (usecase.repo w)))
        as [m0|] eqn:E; [|done].
      injection Hget as ->. apply find_some in E as [_ E].
      unfold repository.has_id in E. lia. }
    unfold usecase.made, usecase.MessageUseCase.BanMessage,
      usecase.MessageUseCase.UnbanMessage, usecase.bind, usecase.repo_GetByID.
    rewrite Hget. simpl. unfold repository.Ban, repository.Unban.
    split; (split; [reflexivity|]); split.
    + exists (domain.Message.with_IsBanned m true). split.
      { rewrite GetByID_set_banned, Hget. by rewrite decide_True. }
      destruct m. simpl in *. repeat (split; [done|]). by rewrite <- !app_assoc.
    + intros id' Hne. rewrite GetByID_set_banned.
      destruct (repository.GetByID id' (usecase.repo w)); [|done].
      by rewrite decide_False.
    + exists (domain.Message.with_IsBanned m false). split.
      { rewrite GetByID_set_banned, Hget. by rewrite decide_True. }
      destruct m. simpl in *. repeat (split; [done|]). by rewrite <- !app_assoc.
    + intros id' Hne. rewrite GetByID_set_banned.
      destruct (repository.GetByID id' (usecase.repo w)); [|done].
      by rewrite decide_False.
Qed.

(** On the worked database: there is no message 999 to ban; message 1 is
    banned. *)
Lemma MessageUseCase_BanMessage_looks_up_witness :
  usecase.MessageUseCase.BanMessage 999 examples.world_hello
  = (Err "message not found",
     usecase.log (usecase.Repo (usecase.OpGetByID 999)) examples.world_hello)
  ∧ ∃ m', repository.GetByID 1
            (usecase.repo (snd (usecase.MessageUseCase.BanMessage 1
                                  examples.world_hello))) = Ok m'
          ∧ domain.Message.IsBanned m' = true.
Proof.
  split.
  - apply (proj1 (MessageUseCase_BanMessage_looks_up examples.world_hello 999)).
    intros m H%list_elem_of_singleton. subst m. discriminate.
  - destruct (proj2 (MessageUseCase_BanMessage_looks_up examples.world_hello 1)
                examples.hello eq_refl) as ((_ & (m' & Hget & Hb & _) & _) & _).
    exists m'. by split.
Defined.

(** [UseCase] of usecase.go hands [BanMessage] and [CreateMessage] to the
    repository as they come: no lookup of the message or of the author, no
    broadcast.  (cmd/main.go runs [MessageUseCase]; main.go runs this one.) *)
Lemma UseCase_forwards (w : usecase.World) (id userID : Z) (username content : string) :
  usecase.UseCase.BanMessage id w
  = (Ok tt, usecase.set_repo (repository.Ban id (usecase.repo w))
              (usecase.log (usecase.Repo (usecase.OpBan id)) w))
  ∧ usecase.made (usecase.UseCase.CreateMessage userID username content) w
      [usecase.Repo (usecase.OpCreate
         (domain.Message.mk 0 userID username content usecase.zero_time false))].
Proof. split; reflexivity. Qed.

(** C4, at inputs where the code leaves the claim.  The database holds the
    message 1, not banned, and no message 999.  [UseCase.BanMessage 999] and
    [UseCase.UnbanMessage 999] of usecase.go return nil, having run the
    UPDATE and nothing else, where [MessageUseCase] of message_usecase.go
    returns "message not found".  [UseCase.BanMessage 1] returns nil and
    message 1 then reads with [IsBanned] true, but no broadcast is made:
    the one call is the UPDATE, where [MessageUseCase.BanMessage 1] looks
    the message up, runs the UPDATE and broadcasts the message with the new
    flag.  Likewise for [UnbanMessage] on the banned message. *)
Theorem UseCase_banMessage_no_lookup_no_broadcast :
  let w := examples.world_hello in
  let hello := domain.Message.mk 1 0 "anonymous" "Hello" 1000 false in
  let banned := domain.Message.mk 1 0 "anonymous" "Hello" 1000 true in
  let w1 := snd (usecase.UseCase.BanMessage 1 w) in
  repository.GetByID 1 (usecase.repo w) = Ok hello
  ∧ repository.GetByID 999 (usecase.repo w) = Err "message not found"
  ∧ usecase.UseCase.BanMessage 999 w
    = (Ok tt, usecase.log (usecase.Repo (usecase.OpBan 999)) w)
  ∧ usecase.UseCase.UnbanMessage 999 w
    = (Ok tt, usecase.log (usecase.Repo (usecase.OpUnban 999)) w)
  ∧ fst (usecase.MessageUseCase.BanMessage 999 w) = Err "message not found"
  ∧ fst (usecase.MessageUseCase.UnbanMessage 999 w) = Err "message not found"
  ∧ fst (usecase.UseCase.BanMessage 1 w) = Ok tt
  ∧ repository.GetByID 1 (usecase.repo w1) = Ok banned
  ∧ usecase.made (usecase.UseCase.BanMessage 1) w
      [usecase.Repo (usecase.OpBan 1)]
  ∧ usecase.made (usecase.MessageUseCase.BanMessage 1) w
      [usecase.Repo (usecase.OpGetByID 1); usecase.Repo (usecase.OpBan 1);
       usecase.Broadcast banned]
  ∧ fst (usecase.UseCase.UnbanMessage 1 w1) = Ok tt
  ∧ repository.GetByID 1 (usecase.repo (snd (usecase.UseCase.UnbanMessage 1 w1)))
    = Ok hello
  ∧ usecase.made (usecase.UseCase.UnbanMessage 1) w1
      [usecase.Repo (usecase.OpUnban 1)]
  ∧ usecase.made (usecase.MessageUseCase.UnbanMessage 1) w1
      [usecase.Repo (usecase.OpGetByID 1); usecase.Repo (usecase.OpUnban 1);
       usecase.Broadcast hello].
Proof. cbv zeta. repeat split; vm_compute; reflexivity. Qed.

(** C8, at inputs where the code leaves the claim.  The auth service
    returns user 3 as banned and knows no user 999.  [UseCase.CreateMessage]
    of usecase.go, for the user ids 3 and 999, makes one call, [Create]:
    the auth service is not asked, the message is returned without error
    and is stored.  [UseCase.CreateComment] for user 3 makes one call,
    [CreateComment], and the comment is stored.  [MessageUseCase] of
    message_usecase.go, at the same inputs, asks the auth service and
    returns "user is banned" and "user not found", having stored nothing. *)
Theorem UseCase_createMessage_no_lookup :
  let w := examples.world_hello in
  let m3 := domain.Message.mk 2 3 "banned" "Banned user message" 1000 false in
  let m999 :=
    domain.Message.mk 2 999 "nonexistent" "Non-existent user message" 1000 false in
  let c3 := domain.Comment.mk 1 1 3 "banned" "Banned user comment" 1000 1300 in
  let cm := usecase.UseCase.CreateMessage 3 "banned" "Banned user message" in
  let cm' :=
    usecase.UseCase.CreateMessage 999 "nonexistent" "Non-existent user message" in
  let cc := usecase.UseCase.CreateComment 1 3 "banned" "Banned user comment" in
  usecase.auth w 3 = Ok (domain.User.mk 3 "banned" "user" true)
  ∧ usecase.auth w 999 = Err "user not found"
  ∧ fst (cm w) = Ok m3
  ∧ repository.GetByID 2 (usecase.repo (snd (cm w))) = Ok m3
  ∧ usecase.made cm w
      [usecase.Repo (usecase.OpCreate
         (domain.Message.mk 0 3 "banned" "Banned user message"
            usecase.zero_time false))]
  ∧ fst (cm' w) = Ok m999
  ∧ repository.GetByID 2 (usecase.repo (snd (cm' w))) = Ok m999
  ∧ usecase.made cm' w
      [usecase.Repo (usecase.OpCreate
         (domain.Message.mk 0 999 "nonexistent" "Non-existent user message"
            usecase.zero_time false))]
  ∧ fst (cc w) = Ok c3
  ∧ repository.GetCommentByID 1 (usecase.repo (snd (cc w))) = Ok c3
  ∧ usecase.made cc w
      [usecase.Repo (usecase.OpCreateComment
         (domain.Comment.mk 0 1 3 "banned" "Banned user comment" 1000
            usecase.zero_time))]
  ∧ usecase.MessageUseCase.CreateMessage 3 "banned" "Banned user message" w
    = (Err "user is banned", usecase.log (usecase.AuthGetUser 3) w)
  ∧ usecase.MessageUseCase.CreateMessage 999 "nonexistent"
      "Non-existent user message" w
    = (Err "user not found", usecase.log (usecase.AuthGetUser 999) w)
  ∧ usecase.MessageUseCase.CreateComment 1 3 "banned" "Banned user comment" w
    = (Err "user is banned", usecase.log (usecase.AuthGetUser 3) w).
Proof. cbv zeta. repeat split; vm_compute; reflexivity. Qed.

(* ===================================================================== *)
(** * The hub *)
(* ===================================================================== *)
Section HubFacts.
Import ws.

Lemma elem_of_remove_other (c c' : Client) (X : gset Client) :
  c' ≠ c -> c' ∈ X ∖ {[c]} ↔ c' ∈ X.
Proof.
  intros Hne. rewrite elem_of_difference, elem_of_singleton. tauto.
Qed.

Lemma not_elem_of_remove (c : Client) (X : gset Client) : c ∉ X ∖ {[c]}.
Proof. rewrite elem_of_difference, elem_of_singleton. tauto. Qed.

Lemma close_open c h ch :
  chans h !! c = Some ch -> closed ch = false ->
  close c h = Some (mkHub (clients h) (<[c := close_chan ch]> (chans h))).
Proof. intros Hc Ho. unfold close. by rewrite Hc, Ho. Qed.

(** The loop body on a client whose channel is open. *)
Lemma send_or_drop_open message c h ch :
  chans h !! c = Some ch -> closed ch = false ->
  send_or_drop message c h
  = Some (if can_send ch
          then mkHub (clients h) (<[c := push message ch]> (chans h))
          else mkHub (clients h ∖ {[c]}) (<[c := close_chan ch]> (chans h))).
Proof.
  intros Hc Ho. unfold send_or_drop. rewrite Hc, Ho.
  destruct (can_send ch); [done|].
  by rewrite (close_open _ _ _ Hc Ho).
Qed.

(** The loop body touches the client it is run for and no other. *)
Lemma send_or_drop_other message c c' h h' :
  send_or_drop message c h = Some h' -> c' ≠ c ->
  chans h' !! c' = chans h !! c' ∧ (c' ∈ clients h' ↔ c' ∈ clients h).
Proof.
  unfold send_or_drop, close. intros H Hne.
  destruct (chans h !! c) as [ch|]; [|done].
  destruct (closed ch); [done|].
  destruct (can_send ch); simplify_eq/=.
  - by rewrite lookup_insert_ne.
  - rewrite lookup_insert_ne by done. split; [done|].
    by apply elem_of_remove_other.
Qed.

Lemma range_clients_other message order c' h h' :
  range_clients order message h = Some h' -> c' ∉ order ->
  chans h' !! c' = chans h !! c' ∧ (c' ∈ clients h' ↔ c' ∈ clients h).
Proof.
  revert h. induction order as [|c order IH]; intros h H Hnot.
  - by simplify_eq/=.
  - simpl in H. destruct (send_or_drop message c h) as [h1|] eqn:E; [|done].
    simpl in H. apply not_elem_of_cons in Hnot as [Hne Hnot].
    destruct (IH h1 H Hnot) as [-> ->].
    by apply (send_or_drop_other message c c' h h1).
Qed.

(** A range over clients with open channels ends without a panic, and
    does to each client met what the loop body says. *)
Lemma range_clients_open message order h :
  NoDup order -> (∀ c, c ∈ order -> open_at c h) ->
  ∃ h', range_clients order message h = Some h'
    ∧ ∀ c ch, c ∈ order -> chans h !! c = Some ch ->
        if can_send ch
        then chans h' !! c = Some (push message ch)
             ∧ (c ∈ clients h' ↔ c ∈ clients h)
        else chans h' !! c = Some (close_chan ch) ∧ c ∉ clients h'.
Proof.
  revert h. induction order as [|c0 order IH]; intros h Hnd Hopen.
  - exists h. split; [done|]. by intros c ch ?%elem_of_nil.
  - apply NoDup_cons in Hnd as [Hc0 Hnd].
    destruct (Hopen c0 (list_elem_of_here _ _)) as (ch0 & Hch0 & Ho0).
    pose proof (send_or_drop_open message c0 h ch0 Hch0 Ho0) as Hs.
    set (h1 := if can_send ch0
               then mkHub (clients h) (<[c0 := push message ch0]> (chans h))
               else mkHub (clients h ∖ {[c0]})
                          (<[c0 := close_chan ch0]> (chans h))) in *.
    destruct (IH h1 Hnd) as (h' & Hr & Hspec).
    { intros c Hin. destruct (Hopen c (list_elem_of_further _ _ _ Hin))
        as (ch & Hch & Ho).
      assert (c ≠ c0) as Hne by (intros ->; done).
      destruct (send_or_drop_other message c0 c h h1 Hs Hne) as [Heq _].
      exists ch. by rewrite Heq. }
    exists h'. split; [simpl; by rewrite Hs|].
    intros c ch Hin Hch. apply elem_of_cons in Hin as [->|Hin].
    + destruct (range_clients_other message order c0 h1 h' Hr Hc0) as [Hk Hm].
      rewrite Hch0 in Hch. injection Hch as <-.
      subst h1. destruct (can_send ch0); simpl in *.
      * rewrite Hk, Hm. by rewrite lookup_insert_eq.
      * rewrite Hk, Hm. rewrite lookup_insert_eq. split; [done|].
        apply not_elem_of_remove.
    + assert (c ≠ c0) as Hne by (intros ->; done).
      destruct (send_or_drop_other message c0 c h h1 Hs Hne) as [Heq Hmem].
      rewrite <- Heq in Hch. specialize (Hspec c ch Hin Hch).
      destruct (can_send ch); [by rewrite <- Hmem|done].
Qed.

Lemma unregister_absent c h : c ∉ clients h -> unregister c h = Some h.
Proof. intros H. unfold unregister. by rewrite decide_False. Qed.

Lemma unregister_removes c h h' : unregister c h = Some h' -> c ∉ clients h'.
Proof.
  unfold unregister, close. destruct (decide (c ∈ clients h)) as [Hin|Hin].
  - simpl. destruct (chans h !! c) as [ch|]; [|done].
    destruct (closed ch); [done|]. intros [= <-]. simpl.
    apply not_elem_of_remove.
  - by intros [= <-].
Qed.

Lemma unregister_other c c' h h' :
  unregister c h = Some h' -> c' ≠ c ->
  chans h' !! c' = chans h !! c' ∧ (c' ∈ clients h' ↔ c' ∈ clients h).
Proof.
  unfold unregister, close. intros H Hne.
  destruct (decide (c ∈ clients h)); [|by simplify_eq].
  simpl in H. destruct (chans h !! c) as [ch|]; [|done].
  destruct (closed ch); [done|]. simplify_eq/=.
  rewrite lookup_insert_ne by done. split; [done|].
  by apply elem_of_remove_other.
Qed.

(** A client that is not registered stays out, channel untouched, through
    every turn that does not register it. *)
Lemma step_keeps_out c h r h' :
  step h r h' -> r ≠ Register c -> c ∉ clients h ->
  (c ∉ clients h') ∧ chans h' !! c = chans h !! c.
Proof.
  intros Hstep Hr Hout. destruct Hstep as [c' h|c' h h' Hun|m order h h' Hv Hrun].
  - simpl. split; [|done]. assert (c ≠ c') as Hne by congruence.
    rewrite elem_of_union, elem_of_singleton. tauto.
  - destruct (decide (c = c')) as [->|Hne].
    + rewrite (unregister_absent _ _ Hout) in Hun. by injection Hun as <-.
    + destruct (unregister_other c' c h h' Hun Hne) as [-> ->]. done.
  - destruct Hv as [_ Hv].
    assert (c ∉ order) as Hnot by (by rewrite Hv).
    destruct (range_clients_other m order c h h' Hrun Hnot) as [-> ->]. done.
Qed.

Lemma steps_keep_out c h rs h' :
  steps h rs h' -> never_registers c rs -> c ∉ clients h ->
  (c ∉ clients h') ∧ chans h' !! c = chans h !! c.
Proof.
  induction 1 as [h|h r h1 rs h2 Hstep Hsteps IH]; intros Hnr Hout; [done|].
  apply Forall_cons in Hnr as [Hr Hnr].
  destruct (step_keeps_out c h r h1 Hstep Hr Hout) as [Hout1 <-].
  by apply IH.
Qed.

(** *** The invariant *)

Lemma wf_NewHub : wf NewHub.
Proof. intros c Hin. simpl in Hin. by apply elem_of_empty in Hin. Qed.

Lemma wf_register c h : wf h -> open_at c h -> wf (register c h).
Proof.
  intros Hwf Ho c' Hin. simpl in Hin.
  apply elem_of_union in Hin as [->%elem_of_singleton|Hin]; [done|].
  by apply Hwf.
Qed.

Lemma wf_unregister c h :
  wf h -> ∃ h', unregister c h = Some h' ∧ wf h'.
Proof.
  intros Hwf. unfold unregister. destruct (decide (c ∈ clients h)) as [Hin|Hin].
  - destruct (Hwf c Hin) as (ch & Hch & Ho).
    rewrite (close_open c (delete_client c h) ch Hch Ho).
    eexists. split; [done|]. intros c' Hin'. simpl in Hin'.
    apply elem_of_difference in Hin' as [Hin' Hne].
    rewrite elem_of_singleton in Hne.
    destruct (Hwf c' Hin') as (ch' & Hch' & Ho').
    exists ch'. simpl. by rewrite lookup_insert_ne.
  - by exists h.
Qed.

Lemma visits_elements h : visits (elements (clients h)) h.
Proof. split; [apply NoDup_elements|]. intros c. apply elem_of_elements. Qed.

Lemma wf_range_clients message order h :
  wf h -> visits order h ->
  ∃ h', range_clients order message h = Some h' ∧ wf h'.
Proof.
  intros Hwf [Hnd Hv].
  destruct (range_clients_open message order h Hnd) as (h' & Hr & Hspec).
  { intros c Hin. apply Hwf. by apply Hv. }
  exists h'. split; [done|]. intros c Hin.
  destruct (decide (c ∈ order)) as [Hord|Hord].
  - destruct (Hwf c) as (ch & Hch & Ho); [by apply Hv|].
    specialize (Hspec c ch Hord Hch). destruct (can_send ch).
    + destruct Hspec as [Hch' _]. by exists (push message ch).
    + by destruct Hspec as [_ Hout].
  - destruct (range_clients_other message order c h h' Hr Hord) as [Heq Hmem].
    apply Hmem, Hv in Hin. done.
Qed.

(** The loop never panics from a state of the invariant, when the clients
    that register have an open channel. *)
Lemma Run_step_wf r h :
  wf h -> (∀ c, r = Register c -> open_at c h) ->
  ∃ h', Run_step r h = Some h' ∧ step h r h' ∧ wf h'.
Proof.
  intros Hwf Hreg. destruct r as [c|c|m]; simpl.
  - eexists. split; [done|]. split; [constructor|].
    apply wf_register; [done|]. by apply Hreg.
  - destruct (wf_unregister c h Hwf) as (h' & Hun & Hwf').
    exists h'. split; [done|]. split; [by constructor|done].
  - destruct (wf_range_clients m (elements (clients h)) h Hwf (visits_elements h))
      as (h' & Hr & Hwf').
    exists h'. split; [done|]. split; [|done].
    apply (step_publish m (elements (clients h))); [apply visits_elements|done].
Qed.

End HubFacts.

Section HubExamples.
Import ws examples.

Lemma wf_hub12 : wf hub12.
Proof.
  intros c Hin. unfold hub12 in Hin. simpl in Hin.
  apply elem_of_union in Hin as [Hin|Hin];
    apply elem_of_singleton in Hin; subst c;
    eexists; (split; [reflexivity|done]).
Qed.

Lemma buffered_hub12 : buffered hub12.
Proof.
  intros c ch Hin Hch. unfold hub12 in Hin, Hch. simpl in Hin, Hch.
  apply elem_of_union in Hin as [Hin|Hin];
    apply elem_of_singleton in Hin; subst c;
    vm_compute in Hch; injection Hch as <-; simpl; lia.
Qed.

Lemma visits_hub12 : visits [1%positive; 2%positive] hub12.
Proof.
  split.
  - apply NoDup_cons. split; [by intros H%list_elem_of_singleton|].
    apply NoDup_singleton.
  - intros c. unfold hub12. simpl.
    rewrite elem_of_cons, list_elem_of_singleton, elem_of_union,
      !elem_of_singleton. tauto.
Qed.

(** Why the invariant is asked for: a session registered again after it was
    unregistered comes with a closed channel, and the next publish panics
    on the send. *)
Lemma publish_to_closed_channel_panics :
  ((Run_step (Unregister 1%positive) hub12 ≫= Run_step (Register 1%positive))
     ≫= Run_step (Publish "new")) = None.
Proof. vm_compute. reflexivity. Qed.

End HubExamples.

(** C5.  From a state where every registered session has an open queue
    with a buffer, a publish ends (in whatever order the sessions are met)
    in a state of the same kind where: a session that was registered with
    room in its queue is still registered and has the event at the end of
    its queue; a session that was registered with a full queue is no longer
    registered, its queue is closed with what it held before, and stays so
    through every later sequence of requests that does not register it
    again. *)
Theorem publish_drops_full_sessions
  (h : ws.Hub) (message : ws.payload) (order : list ws.Client) :
  ws.wf h -> ws.buffered h -> ws.visits order h ->
  ∃ h', ws.range_clients order message h = Some h'
    ∧ ws.step h (ws.Publish message) h'
    ∧ ws.wf h' ∧ ws.buffered h'
    ∧ ∀ c ch, c ∈ ws.clients h -> ws.chans h !! c = Some ch ->
        if ws.can_send ch
        then c ∈ ws.clients h' ∧ ws.chans h' !! c = Some (ws.push message ch)
        else (c ∉ ws.clients h')
             ∧ ws.chans h' !! c = Some (ws.close_chan ch)
             ∧ ∀ rs h'', ws.never_registers c rs -> ws.steps h' rs h'' ->
                 (c ∉ ws.clients h'')
                 ∧ ws.chans h'' !! c = Some (ws.close_chan ch).
Proof.
  intros Hwf Hbuf Hv.
  destruct (wf_range_clients message order h Hwf Hv) as (h' & Hr & Hwf').
  exists h'. split; [done|]. split; [by apply (ws.step_publish message order)|].
  split; [done|].
  destruct Hv as [Hnd Hv].
  destruct (range_clients_open message order h Hnd) as (h1 & Hr1 & Hspec).
  { intros c' Hin'. apply Hwf. by apply Hv. }
  rewrite Hr in Hr1. injection Hr1 as <-.
  split.
  - intros c ch' Hin' Hch'.
    destruct (decide (c ∈ order)) as [Hord|Hord].
    + destruct (Hwf c (proj1 (Hv c) Hord)) as (ch & Hch & _).
      specialize (Hspec c ch Hord Hch).
      pose proof (Hbuf c ch (proj1 (Hv c) Hord) Hch) as Hcap.
      destruct (ws.can_send ch).
      * destruct Hspec as [Hpush _]. rewrite Hpush in Hch'.
        injection Hch' as <-. exact Hcap.
      * by destruct Hspec as [_ Hout].
    + destruct (range_clients_other message order c h h' Hr Hord) as [_ Hmem].
      exfalso. apply Hord, Hv, Hmem, Hin'.
  - intros c ch Hin Hch.
    specialize (Hspec c ch (proj2 (Hv c) Hin) Hch).
    destruct (ws.can_send ch).
    + destruct Hspec as [Hch' Hmem]. split; [by apply Hmem|done].
    + destruct Hspec as [Hch' Hout]. split; [done|]. split; [done|].
      intros rs h'' Hnr Hsteps.
      destruct (steps_keep_out c h' rs h'' Hsteps Hnr Hout) as [Hout' Heq].
      split; [done|]. by rewrite Heq.
Qed.

(** On the worked hub: session 1 gets the event, session 2 is dropped. *)
Lemma publish_drops_full_sessions_witness :
  ∃ h', ws.range_clients [1%positive; 2%positive] "new" examples.hub12 = Some h'
    ∧ (1%positive ∈ ws.clients h'
       ∧ ws.chans h' !! 1%positive = Some (ws.mkChan ["new"] 1 false))
    ∧ ((2%positive ∉ ws.clients h')
       ∧ ws.chans h' !! 2%positive = Some (ws.mkChan ["old"] 1 true)).
Proof.
  destruct (publish_drops_full_sessions examples.hub12 "new"
              [1%positive; 2%positive] wf_hub12 buffered_hub12 visits_hub12)
    as (h' & Hr & _ & _ & _ & Hspec).
  exists h'. split; [exact Hr|]. split.
  - apply (Hspec 1%positive (ws.mkChan [] 1 false)); [|reflexivity].
    apply elem_of_union_l, elem_of_singleton. reflexivity.
  - destruct (Hspec 2%positive (ws.mkChan ["old"] 1 false)) as (H1 & H2 & _);
      [|reflexivity|by split].
    apply elem_of_union_r, elem_of_singleton. reflexivity.
Defined.

(** C9.  Unregistering a session that is not registered returns the state
    as it was; and unregistering twice in a row is unregistering once. *)
Theorem unregister_idempotent (h : ws.Hub) (c : ws.Client) :
  (c ∉ ws.clients h -> ws.unregister c h = Some h)
  ∧ (ws.unregister c h ≫= ws.unregister c) = ws.unregister c h.
Proof.
  split; [apply unregister_absent|].
  destruct (ws.unregister c h) as [h'|] eqn:E; [|done]. simpl.
  apply unregister_absent. by apply (unregister_removes c h).
Qed.

(** On the worked hub: session 3 was never registered. *)
Lemma unregister_idempotent_witness :
  ws.unregister 3%positive examples.hub12 = Some examples.hub12.
Proof.
  apply (proj1 (unregister_idempotent examples.hub12 3%positive)).
  unfold examples.hub12. simpl.
  rewrite elem_of_union, !elem_of_singleton. intros [H|H]; discriminate H.
Defined.

(* ===================================================================== *)
(** * More on the repository *)
(* ===================================================================== *)
Section RepositoryMore.
Import domain repository.

Lemma find_snoc {A} (f : A -> bool) (l : list A) (x : A) :
  find f (l ++ [x])
  = match find f l with
    | Some y => Some y
    | None => if f x then Some x else None
    end.
Proof.
  induction l as [|y l IH]; simpl; [done|]. by destruct (f y).
Qed.

Lemma find_none_iff {A} (f : A -> bool) (l : list A) :
  find f l = None ↔ ∀ x, x ∈ l -> f x = false.
Proof.
  split.
  - intros H x Hin. apply (find_none _ _ H). by apply list_elem_of_In.
  - intros H. destruct (find f l) as [y|] eqn:E; [|done].
    apply find_some in E as [Hin Hy]. apply list_elem_of_In in Hin.
    rewrite (H y Hin) in Hy. discriminate.
Qed.

Lemma StronglySorted_sublist {A} (R : relation A) (l k : list A) :
  l `sublist_of` k -> StronglySorted R k -> StronglySorted R l.
Proof.
  induction 1 as [|x l k Hsub IH|x l k Hsub IH]; intros Hs; [done| |].
  - apply StronglySorted_inv in Hs as [Hk Hall]. constructor; [by apply IH|].
    rewrite Forall_forall in *. intros y Hy. apply Hall.
    by apply (elem_of_sublist l k).
  - apply StronglySorted_inv in Hs as [Hk _]. by apply IH.
Qed.

Lemma limit_offset_sublist {A} limit offset (rows : list A) :
  limit_offset limit offset rows `sublist_of` rows.
Proof.
  unfold limit_offset. destruct (limit <? 0).
  - apply sublist_drop.
  - etrans; [apply sublist_take|apply sublist_drop].
Qed.

End RepositoryMore.

Section CreateFacts.
Import domain repository.

(** What [Create] leaves in well-formed tables. *)
Lemma Create_then_GetByID_facts now message s :
  valid s ->
  (∀ m, m ∈ messages s -> Message.ID m < messages_seq s + 1)
  ∧ GetByID (messages_seq s + 1) (snd (Create now message s))
    = Ok (Message.with_ID (Message.with_CreatedAt message now) (messages_seq s + 1))
  ∧ (∀ id', id' ≠ messages_seq s + 1 ->
            GetByID id' (snd (Create now message s)) = GetByID id' s)
  ∧ valid (snd (Create now message s)).
Proof.
  intros Hv.
  assert (∀ m, m ∈ messages s -> Message.ID m < messages_seq s + 1) as Hlt.
  { destruct Hv as (_ & _ & Hms & _). rewrite Forall_forall in Hms.
    intros m Hin. specialize (Hms m Hin). simpl in Hms. lia. }
  split; [exact Hlt|]. split; [|split].
  - unfold GetByID. simpl. rewrite find_snoc.
    assert (find (has_id (messages_seq s + 1)) (messages s) = None) as ->.
    { apply find_none_iff. intros m Hin. specialize (Hlt m Hin).
      unfold has_id. lia. }
    unfold has_id. simpl. by rewrite Z.eqb_refl.
  - intros id' Hne. unfold GetByID. simpl. rewrite find_snoc.
    destruct (find (has_id id') (messages s)); [done|].
    unfold has_id. simpl.
    destruct (Z.eqb_spec (messages_seq s + 1) id'); [congruence|done].
  - apply (valid_Create now message s Hv).
Qed.

End CreateFacts.

(** X1.  [Create] and [GetByID] round trip: in well-formed tables whose
    counter is below the highest row id, the id [Create] returns is one
    above the counter, above every id stored before and not above the
    highest row id; under it [GetByID] finds the message as it was given,
    with the second of the insert; and every other id reads as before. *)
Theorem Create_then_GetByID
  (now : Z) (message : domain.Message.t) (s : repository.Store) :
  repository.valid s ->
  repository.messages_seq s < repository.max_rowid ->
  let id := fst (fst (repository.Create now message s)) in
  let s' := snd (repository.Create now message s) in
  id = repository.messages_seq s + 1
  ∧ id <= repository.max_rowid
  ∧ (∀ m, m ∈ repository.messages s -> domain.Message.ID m < id)
  ∧ repository.GetByID id s'
    = Ok (domain.Message.with_ID (domain.Message.with_CreatedAt message now) id)
  ∧ (∀ id', id' ≠ id -> repository.GetByID id' s' = repository.GetByID id' s)
  ∧ repository.valid s'.
Proof.
  intros Hv Hmax. cbv zeta. simpl.
  split; [reflexivity|]. split; [lia|].
  apply (Create_then_GetByID_facts now message s Hv).
Qed.

(** On the worked database: the second message gets the id 2. *)
Lemma Create_then_GetByID_witness :
  repository.GetByID 2
    (snd (repository.Create 1200 (domain.Message.mk 0 1 "testuser" "second" 0 false)
            (usecase.repo examples.world_later)))
  = Ok (domain.Message.mk 2 1 "testuser" "second" 1200 false).
Proof.
  refine (proj1 (proj2 (proj2 (proj2 (Create_then_GetByID 1200
           (domain.Message.mk 0 1 "testuser" "second" 0 false)
           (usecase.repo examples.world_later) valid_world_later _))))).
  vm_compute. reflexivity.
Defined.





(** X4.  Pages of [List], for a limit and an offset that are not negative:
    a page has [min limit (total - offset)] messages (none when the offset
    is past the end), and a page followed by the next page is the page of
    both limits together; the total does not depend on the page. *)
Theorem List_pages (limit limit' offset : Z) (s : repository.Store) :
  0 <= limit -> 0 <= limit' -> 0 <= offset ->
  let page := fst (repository.List limit offset s) in
  let total := snd (repository.List limit offset s) in
  Z.of_nat (length page) = Z.min limit (Z.max 0 (total - offset))
  ∧ (page ++ fst (repository.List limit' (offset + limit) s))%list
    = fst (repository.List (limit + limit') offset s)
  ∧ snd (repository.List limit' (offset + limit) s) = total.
Proof.
  intros Hl Hl' Ho. cbv zeta. unfold repository.List, repository.limit_offset.
  simpl.
  replace (limit <? 0) with false by lia.
  replace (limit' <? 0) with false by lia.
  replace (limit + limit' <? 0) with false by lia.
  set (all := repository.order_by_created_at_desc (repository.messages s)).
  assert (length all = length (repository.messages s)) as Hlen.
  { unfold all, repository.order_by_created_at_desc.
    by rewrite merge_sort_Permutation. }
  split; [|split; [|done]].
  - rewrite length_take, length_drop, Hlen. lia.
  - replace (Z.to_nat (offset + limit))
      with (Z.to_nat offset + Z.to_nat limit)%nat by lia.
    replace (Z.to_nat (limit + limit'))
      with (Z.to_nat limit + Z.to_nat limit')%nat by lia.
    rewrite <- drop_drop. apply take_take_drop.
Qed.

(** On the worked database: one message, so the first page of ten has it
    and the page after has nothing. *)
Lemma List_pages_witness :
  Z.of_nat (length (fst (repository.List 10 0 (usecase.repo examples.world_later))))
  = Z.min 10 (Z.max 0 (1 - 0)).
Proof.
  apply (proj1 (List_pages 10 10 0 (usecase.repo examples.world_later)
                  ltac:(lia) ltac:(lia) ltac:(lia))).
Defined.

(** X5.  What [List] and [GetAllMessages] return is in the table and is
    newest first: [GetAllMessages] returns every stored message once,
    banned or not, and a page of [List] is a run of consecutive messages of
    that list, so no message comes before a newer one. *)
Theorem List_newest_first (limit offset : Z) (s : repository.Store) :
  let page := fst (repository.List limit offset s) in
  repository.GetAllMessages s ≡ₚ repository.messages s
  ∧ StronglySorted repository.newer_first (repository.GetAllMessages s)
  ∧ page `sublist_of` repository.GetAllMessages s
  ∧ StronglySorted repository.newer_first page
  ∧ (∀ m, m ∈ page -> m ∈ repository.messages s).
Proof.
  cbv zeta.
  assert (fst (repository.List limit offset s)
          `sublist_of` repository.GetAllMessages s) as Hsub.
  { apply limit_offset_sublist. }
  split; [apply merge_sort_Permutation|].
  split; [apply GetAllMessages_newest_first|].
  split; [exact Hsub|]. split.
  - eapply StronglySorted_sublist; [exact Hsub|apply GetAllMessages_newest_first].
  - intros m Hin. apply GetAllMessages_elem. by apply (elem_of_sublist _ _ _ Hin).
Qed.

Section BanFacts.
Import domain repository.

Lemma set_banned_set_banned id b b' m :
  set_banned id b (set_banned id b' m) = set_banned id b m.
Proof.
  unfold set_banned. destruct (has_id id m) eqn:E.
  - unfold has_id in *. simpl. by rewrite E.
  - by rewrite E.
Qed.

Lemma map_set_banned_absent id b (l : list Message.t) :
  (∀ m, m ∈ l -> Message.ID m ≠ id) -> map (set_banned id b) l = l.
Proof.
  induction l as [|x l IH]; intros H; [done|]. simpl.
  rewrite IH by (intros m Hm; apply H; by apply list_elem_of_further).
  unfold set_banned, has_id.
  specialize (H x (list_elem_of_here _ _)).
  destruct (Z.eqb_spec (Message.ID x) id); [done|done].
Qed.

Lemma Ban_Unban_facts id s :
  (∀ m, m ∈ messages s -> Message.ID m ≠ id) -> Ban id s = s ∧ Unban id s = s.
Proof.
  intros Habs. unfold Ban, Unban.
  rewrite !map_set_banned_absent by done. by destruct s.
Qed.

End BanFacts.

(** X6.  [Ban] and [Unban] in the repository.  For an id that no message has
    they change nothing (and still return [nil]).  The last of several for
    the same id decides: banning twice is banning once, and an unban after a
    ban leaves what the unban alone leaves.  Neither touches the comments,
    the ids or the number of messages. *)
Theorem Ban_Unban_compose (id : Z) (s : repository.Store) :
  ((∀ m, m ∈ repository.messages s -> domain.Message.ID m ≠ id) ->
     repository.Ban id s = s ∧ repository.Unban id s = s)
  ∧ repository.Ban id (repository.Ban id s) = repository.Ban id s
  ∧ repository.Unban id (repository.Ban id s) = repository.Unban id s
  ∧ repository.Ban id (repository.Unban id s) = repository.Ban id s
  ∧ repository.comments (repository.Ban id s) = repository.comments s
  ∧ domain.Message.ID <$> repository.messages (repository.Ban id s)
    = domain.Message.ID <$> repository.messages s.
Proof.
  unfold repository.Ban, repository.Unban. simpl.
  split; [|split; [|split; [|split; [|split]]]].
  - intros Habs. rewrite !map_set_banned_absent by done. by destruct s.
  - f_equal. rewrite map_map. apply map_ext. intros m. apply set_banned_set_banned.
  - f_equal. rewrite map_map. apply map_ext. intros m. apply set_banned_set_banned.
  - f_equal. rewrite map_map. apply map_ext. intros m. apply set_banned_set_banned.
  - done.
  - apply fmap_ID_set_banned.
Qed.

(** On the worked database: there is no message 999 to ban. *)
Lemma Ban_Unban_compose_witness :
  repository.Ban 999 (usecase.repo examples.world_later)
  = usecase.repo examples.world_later.
Proof.
  refine (proj1 (proj1 (Ban_Unban_compose 999 (usecase.repo examples.world_later)) _)).
  intros m Hm%list_elem_of_singleton. subst m. discriminate.
Defined.

(** X7.  The sweep does not change what [GetComments] returns: at the time
    of the sweep or later, the comments returned for a message are the same
    whether or not the sweep has run. *)
Theorem sweep_keeps_GetComments (now now' messageID : Z) (s : repository.Store) :
  now <= now' ->
  repository.GetComments now' messageID
    (snd (repository.DeleteExpiredComments now s))
  = repository.GetComments now' messageID s.
Proof.
  intros Hle. unfold repository.GetComments, repository.DeleteExpiredComments,
    repository.GetByID. simpl.
  destruct (find (repository.has_id messageID) (repository.messages s)); [|done].
  f_equal. f_equal. rewrite list_filter_filter. apply list_filter_iff.
  intros c. rewrite expired_false. unfold repository.live.
  split; [tauto|]. intros H. split; [done|].
  apply andb_prop in H as [_ H]. lia.
Qed.

(** On the worked database, swept at second 1330 and read at second 1400. *)
Lemma sweep_keeps_GetComments_witness :
  repository.GetComments 1400 1
    (snd (repository.DeleteExpiredComments 1330 (usecase.repo examples.world_later)))
  = repository.GetComments 1400 1 (usecase.repo examples.world_later).
Proof.
  apply (sweep_keeps_GetComments 1330 1400 1 (usecase.repo examples.world_later)).
  lia.
Defined.

(** X8.  The sweep and [GetCommentByID], on well-formed tables: after a sweep
    at [now] a stored comment with [expiresAt <= now] is "comment not found",
    and every other stored comment is found as before. *)
Theorem sweep_then_GetCommentByID
  (now : Z) (s : repository.Store) (c : domain.Comment.t) :
  repository.valid s -> c ∈ repository.comments s ->
  repository.GetCommentByID (domain.Comment.ID c)
    (snd (repository.DeleteExpiredComments now s))
  = if decide (domain.Comment.ExpiresAt c <= now)
    then Err "comment not found" else Ok c.
Proof.
  intros Hv Hin. destruct (decide _) as [Hexp|Hlive].
  - apply GetCommentByID_absent. simpl.
    intros c' [Hl Hin']%list_elem_of_filter Hid.
    assert (c' = c) as ->.
    { pose proof (GetCommentByID_unique _ _ Hv Hin) as H1.
      pose proof (GetCommentByID_unique _ _ Hv Hin') as H2.
      rewrite Hid in H2. congruence. }
    apply expired_false in Hl. lia.
  - apply GetCommentByID_unique.
    + by apply valid_DeleteExpiredComments.
    + simpl. apply list_elem_of_filter. split; [|done].
      apply expired_false. lia.
Qed.

(** On the worked database: "Nice!" is gone after the sweep of second 1330. *)
Lemma sweep_then_GetCommentByID_witness :
  repository.GetCommentByID 1
    (snd (repository.DeleteExpiredComments 1330 (usecase.repo examples.world_later)))
  = Err "comment not found".
Proof.
  refine (sweep_then_GetCommentByID 1330 (usecase.repo examples.world_later)
            examples.nice valid_world_later _).
  apply list_elem_of_here.
Defined.

(* ===================================================================== *)
(** * More on the use case *)
(* ===================================================================== *)
Section UseCaseMore.
Import domain repository usecase requests.

(** Unfolds an operation of the use case down to the repository. *)
Ltac unfold_usecase :=
  unfold outcome, void, MessageUseCase.CreateMessage, MessageUseCase.CreateComment,
    MessageUseCase.BanMessage, MessageUseCase.UnbanMessage,
    MessageUseCase.DeleteMessage, MessageUseCase.DeleteComment,
    MessageUseCase.CleanupExpiredComments, bind, ret, fail, auth_GetUser,
    repo_GetByID, repo_GetCommentByID, repo_CreateComment, repo_Create,
    repo_Ban, repo_Unban, repo_Delete, repo_DeleteComment,
    repo_DeleteExpiredComments, hub_BroadcastMessage, time_Now,
    repository.CreateComment; simpl.

(** Splits on everything an operation branches on. *)
Ltac branches w :=
  repeat match goal with
    | |- context [String.eqb ?c ""] => destruct (String.eqb c ""); simpl
    | |- context [negb (?u =? 0)] => destruct (negb (u =? 0)); simpl
    | |- context [auth w ?u] => destruct (auth w u); simpl
    | |- context [User.IsBanned ?u] => destruct (User.IsBanned u); simpl
    | |- context [GetByID ?i (repo w)] => destruct (GetByID i (repo w)); simpl
    | |- context [GetCommentByID ?i (repo w)] =>
        destruct (GetCommentByID i (repo w)); simpl
    end.

Lemma broadcasts_snoc evs m :
  broadcasts (evs ++ [Broadcast m]) = (broadcasts evs ++ [Broadcast m])%list.
Proof. unfold broadcasts. by rewrite filter_app. Qed.

Lemma broadcasts_snoc_repo evs op : broadcasts (evs ++ [Repo op]) = broadcasts evs.
Proof. unfold broadcasts. rewrite filter_app. apply app_nil_r. Qed.

Lemma broadcasts_snoc_lookup evs id :
  broadcasts (evs ++ [AuthGetUser id]) = broadcasts evs.
Proof. unfold broadcasts. rewrite filter_app. apply app_nil_r. Qed.

(** X9.  Who broadcasts.  Every operation of [MessageUseCase] only adds to
    the calls made so far, and among the calls it adds there is one
    broadcast when the operation is [CreateMessage], [BanMessage] or
    [UnbanMessage] and returns without error, and none otherwise: comments,
    deletions and the sweep are never broadcast, and neither is a failure. *)
Theorem broadcast_once_on_success (w : World) (c : Call) :
  ∃ evs, trace (snd (outcome w c)) = (trace w ++ evs)%list
    ∧ length (broadcasts evs)
      = if announces c && succeeded (fst (outcome w c)) then 1%nat else 0%nat.
Proof.
  destruct c; unfold_usecase; branches w;
    rewrite <- ?app_assoc;
    first [ by (eexists; split; [reflexivity|])
          | by (exists []; split; [by rewrite app_nil_r|]) ].
Qed.

(** X10.  An operation of [MessageUseCase] that returns one of the errors
    it makes itself ("content is required", "user is banned") or that a
    lookup of the repository makes ("message not found", "comment not
    found") has left the database as it was: each of them is returned
    before the first statement that writes. *)
Theorem refusal_leaves_database (w : World) (c : Call) (e : error) :
  fst (outcome w c) = Err e -> e ∈ refusals ->
  repo (snd (outcome w c)) = repo w.
Proof.
  intros He _. revert He.
  destruct c; unfold_usecase; branches w; done.
Qed.

(** With the worked auth service: the banned user 3 is turned down, and the
    database is as before. *)
Lemma refusal_leaves_database_witness :
  repo (snd (outcome examples.world_later
               (CallCreateComment 1 3 "banned" "Banned user comment")))
  = repo examples.world_later.
Proof.
  apply (refusal_leaves_database examples.world_later
           (CallCreateComment 1 3 "banned" "Banned user comment")
           "user is banned").
  - reflexivity.
  - unfold refusals. apply list_elem_of_further, list_elem_of_here.
Defined.

End UseCaseMore.

(** X11.  [MessageUseCase.CreateMessage] when it goes through: on
    well-formed tables whose counter is below the highest row id, with
    content that is not empty and an author who is anonymous or whom the
    auth service returns as not banned, the message returned has a new id
    above every stored one, the author and content given and [IsBanned]
    false; [GetByID] finds under that id a row with the same author,
    content and flag, and with the second of the clock as [CreatedAt]; the
    older messages read as before; and the one broadcast carries the
    message that is returned. *)
Theorem CreateMessage_succeeds
  (w : usecase.World) (userID : Z) (username content : string) :
  repository.valid (usecase.repo w) ->
  repository.messages_seq (usecase.repo w) < repository.max_rowid ->
  content ≠ "" ->
  (userID = 0 ∨ ∃ user, usecase.auth w userID = Ok user
                        ∧ domain.User.IsBanned user = false) ->
  let run := usecase.MessageUseCase.CreateMessage userID username content w in
  ∃ m row,
    fst run = Ok m
    ∧ domain.Message.ID m = repository.messages_seq (usecase.repo w) + 1
    ∧ domain.Message.ID m <= repository.max_rowid
    ∧ domain.Message.UserID m = userID
    ∧ domain.Message.Username m = username
    ∧ domain.Message.Content m = content
    ∧ domain.Message.IsBanned m = false
    ∧ (∀ m', m' ∈ repository.messages (usecase.repo w) ->
             domain.Message.ID m' < domain.Message.ID m)
    ∧ repository.GetByID (domain.Message.ID m) (usecase.repo (snd run)) = Ok row
    ∧ domain.Message.ID row = domain.Message.ID m
    ∧ domain.Message.UserID row = userID
    ∧ domain.Message.Username row = username
    ∧ domain.Message.Content row = content
    ∧ domain.Message.IsBanned row = false
    ∧ domain.Message.CreatedAt row = usecase.clock w
    ∧ (∀ id, id ≠ domain.Message.ID m ->
             repository.GetByID id (usecase.repo (snd run))
             = repository.GetByID id (usecase.repo w))
    ∧ requests.broadcasts (usecase.trace (snd run))
      = (requests.broadcasts (usecase.trace w) ++ [usecase.Broadcast m])%list
    ∧ repository.valid (usecase.repo (snd run)).
Proof.
  intros Hv Hmax Hc Hauthor. cbv zeta.
  pose proof (Create_then_GetByID_facts (usecase.clock w)
                (domain.Message.mk 0 userID username content (usecase.clock w) false)
                (usecase.repo w) Hv) as (Hlt & Hget & Hother & Hv').
  exists (usecase.new_message userID username content w),
         (usecase.new_message userID username content w).
  unfold usecase.MessageUseCase.CreateMessage.
  rewrite (eqb_empty_false _ Hc).
  unfold usecase.bind, usecase.auth_GetUser.
  assert (negb (userID =? 0) = true -> ∃ user, usecase.auth w userID = Ok user
            ∧ domain.User.IsBanned user = false) as Hlook.
  { destruct Hauthor as [-> | H]; [discriminate|done]. }
  destruct (negb (userID =? 0)); simpl.
  - destruct (Hlook eq_refl) as (user & -> & ->). simpl.
    split; [reflexivity|]. split; [reflexivity|]. split; [simpl; lia|].
    do 4 (split; [reflexivity|]).
    split; [exact Hlt|]. split; [exact Hget|]. do 6 (split; [reflexivity|]).
    split; [exact Hother|]. split; [|exact Hv'].
    by rewrite broadcasts_snoc, broadcasts_snoc_repo, broadcasts_snoc_lookup.
  - split; [reflexivity|]. split; [reflexivity|]. split; [simpl; lia|].
    do 4 (split; [reflexivity|]).
    split; [exact Hlt|]. split; [exact Hget|]. do 6 (split; [reflexivity|]).
    split; [exact Hother|]. split; [|exact Hv'].
    by rewrite broadcasts_snoc, broadcasts_snoc_repo.
Qed.

(** With the worked auth service: user 1 posts after "Hello", and gets id 2. *)
Lemma CreateMessage_succeeds_witness :
  ∃ m row,
    fst (usecase.MessageUseCase.CreateMessage 1 "testuser" "Valid test message"
           examples.world_later) = Ok m
    ∧ domain.Message.ID m = 2
    ∧ repository.GetByID 2
        (usecase.repo (snd (usecase.MessageUseCase.CreateMessage 1 "testuser"
                              "Valid test message" examples.world_later)))
      = Ok row
    ∧ domain.Message.CreatedAt row = 1330.
Proof.
  destruct (CreateMessage_succeeds examples.world_later 1 "testuser"
              "Valid test message" valid_world_later)
    as (m & row & Hm & Hid & _ & _ & _ & _ & _ & _ & Hrow
        & _ & _ & _ & _ & _ & Ht & _).
  - vm_compute. reflexivity.
  - discriminate.
  - right. eexists. split; reflexivity.
  - exists m, row. split; [exact Hm|]. split; [exact Hid|].
    split; [|exact Ht]. rewrite Hid in Hrow. exact Hrow.
Defined.

Section DeleteCommentFacts.
Import domain repository usecase.


End DeleteCommentFacts.

(** X12.  [MessageUseCase.DeleteComment].  When no stored comment has the id
    it returns "comment not found" after the one lookup, and the database
    is as before.  Otherwise, on well-formed tables, it succeeds: the
    comment is no longer found, every other comment is found as before, and
    the messages are untouched. *)
Theorem DeleteComment_removes_one (w : usecase.World) (id : Z) :
  repository.valid (usecase.repo w) ->
  let run := usecase.MessageUseCase.DeleteComment id w in
  ((∀ c, c ∈ repository.comments (usecase.repo w) -> domain.Comment.ID c ≠ id) ->
     run = (Err "comment not found",
            usecase.log (usecase.Repo (usecase.OpGetCommentByID id)) w))
  ∧ (∀ c, repository.GetCommentByID id (usecase.repo w) = Ok c ->
       fst run = Ok tt
       ∧ repository.GetCommentByID id (usecase.repo (snd run))
         = Err "comment not found"
       ∧ (∀ c', c' ∈ repository.comments (usecase.repo w) ->
                domain.Comment.ID c' ≠ id ->
                repository.GetCommentByID (domain.Comment.ID c')
                  (usecase.repo (snd run)) = Ok c')
       ∧ repository.messages (usecase.repo (snd run))
         = repository.messages (usecase.repo w)).
Proof.
  intros Hv. cbv zeta. split.
  - intros Habs. apply GetCommentByID_absent in Habs.
    unfold usecase.MessageUseCase.DeleteComment, usecase.bind,
      usecase.repo_GetCommentByID. by rewrite Habs.
  - intros c Hget.
    unfold usecase.MessageUseCase.DeleteComment, usecase.bind,
      usecase.repo_GetCommentByID. rewrite Hget. simpl.
    split; [done|]. split; [|split; [|done]].
    + apply GetCommentByID_absent. simpl.
      intros c' [Hne _]%list_elem_of_filter.
      unfold repository.comment_has_id in Hne. lia.
    + intros c' Hin Hne.
      apply (GetCommentByID_unique (repository.DeleteComment id (usecase.repo w))).
      * by apply valid_DeleteComment.
      * simpl. apply list_elem_of_filter. split; [|done].
        unfold repository.comment_has_id. lia.
Qed.

(** On the worked database: there is no comment 5; comment 1 is deleted. *)
Lemma DeleteComment_removes_one_witness :
  fst (usecase.MessageUseCase.DeleteComment 5 examples.world_later)
  = Err "comment not found"
  ∧ fst (usecase.MessageUseCase.DeleteComment 1 examples.world_later) = Ok tt.
Proof.
  split.
  - refine (f_equal fst (proj1 (DeleteComment_removes_one examples.world_later 5
                                  valid_world_later) _)).
    intros c Hc%list_elem_of_singleton. subst c. discriminate.
  - apply (proj1 (proj2 (DeleteComment_removes_one examples.world_later 1
                           valid_world_later) examples.nice eq_refl)).
Defined.

(** X13.  [MessageUseCase.DeleteMessage] for an id that no message has:
    "message not found" after the one lookup; [Delete] is not called, so the
    comments are as they were too. *)
Theorem DeleteMessage_missing (w : usecase.World) (id : Z) :
  (∀ m, m ∈ repository.messages (usecase.repo w) -> domain.Message.ID m ≠ id) ->
  usecase.MessageUseCase.DeleteMessage id w
  = (Err "message not found", usecase.log (usecase.Repo (usecase.OpGetByID id)) w).
Proof.
  intros Habs. apply GetByID_absent in Habs.
  unfold usecase.MessageUseCase.DeleteMessage, usecase.bind, usecase.repo_GetByID.
  by rewrite Habs.
Qed.

(** On the worked database: there is no message 7. *)
Lemma DeleteMessage_missing_witness :
  usecase.MessageUseCase.DeleteMessage 7 examples.world_later
  = (Err "message not found",
     usecase.log (usecase.Repo (usecase.OpGetByID 7)) examples.world_later).
Proof.
  apply (DeleteMessage_missing examples.world_later 7).
  intros m Hm%list_elem_of_singleton. subst m. discriminate.
Defined.

(** X14.  [UseCase] of usecase.go on ids that are not there: [BanMessage],
    [UnbanMessage] and [DeleteComment] return [nil] and leave the database
    as it was, where [MessageUseCase] returns "not found"; [CreateComment]
    still returns "message not found", the repository checking the parent
    itself. *)
Theorem UseCase_missing_ids
  (w : usecase.World) (id userID : Z) (username content : string) :
  ((∀ m, m ∈ repository.messages (usecase.repo w) -> domain.Message.ID m ≠ id) ->
     fst (usecase.UseCase.BanMessage id w) = Ok tt
     ∧ usecase.repo (snd (usecase.UseCase.BanMessage id w)) = usecase.repo w
     ∧ fst (usecase.UseCase.UnbanMessage id w) = Ok tt
     ∧ usecase.repo (snd (usecase.UseCase.UnbanMessage id w)) = usecase.repo w
     ∧ fst (usecase.UseCase.CreateComment id userID username content w)
       = Err "message not found"
     ∧ usecase.repo (snd (usecase.UseCase.CreateComment id userID username content w))
       = usecase.repo w)
  ∧ ((∀ c, c ∈ repository.comments (usecase.repo w) -> domain.Comment.ID c ≠ id) ->
     fst (usecase.UseCase.DeleteComment id w) = Ok tt
     ∧ usecase.repo (snd (usecase.UseCase.DeleteComment id w)) = usecase.repo w).
Proof.
  split.
  - intros Habs.
    destruct (Ban_Unban_facts id (usecase.repo w) Habs) as [Hb Hu].
    unfold usecase.UseCase.BanMessage, usecase.UseCase.UnbanMessage,
      usecase.UseCase.CreateComment, usecase.bind, usecase.repo_Ban,
      usecase.repo_Unban, usecase.repo_CreateComment, usecase.time_Now,
      repository.CreateComment. simpl.
    rewrite Hb, Hu, (GetByID_absent _ _ Habs). simpl. by repeat split.
  - intros Habs. unfold usecase.UseCase.DeleteComment, usecase.repo_DeleteComment.
    simpl. split; [done|]. unfold repository.DeleteComment.
    assert (filter (fun c => repository.comment_has_id id c = false)
                   (repository.comments (usecase.repo w))
            = repository.comments (usecase.repo w)) as ->.
    { induction (repository.comments (usecase.repo w)) as [|c l IH]; [done|].
      rewrite filter_cons.
      assert (repository.comment_has_id id c = false) as Hc.
      { unfold repository.comment_has_id.
        specialize (Habs c (list_elem_of_here _ _)). lia. }
      rewrite decide_True by done. f_equal. apply IH.
      intros c' Hin. apply Habs. by apply list_elem_of_further. }
    by destruct (usecase.repo w).
Qed.

(** On the worked database: banning the missing message 999 reports no
    error. *)
Lemma UseCase_missing_ids_witness :
  fst (usecase.UseCase.BanMessage 999 examples.world_later) = Ok tt.
Proof.
  refine (proj1 (proj1 (UseCase_missing_ids examples.world_later 999 0 "" "") _)).
  intros m Hm%list_elem_of_singleton. subst m. discriminate.
Defined.

(* ===================================================================== *)
(** * More on the hub *)
(* ===================================================================== *)

(** X15.  The order in which a publish meets the sessions does not matter:
    from a state where every registered session has an open queue, every
    order a range over [h.clients] can take ends, without panic, in one and
    the same state. *)
Theorem publish_order_irrelevant (h : ws.Hub) (message : ws.payload) :
  ws.wf h ->
  ∃ h', ∀ order, ws.visits order h ->
                 ws.range_clients order message h = Some h'.
Proof.
  intros Hwf.
  destruct (wf_range_clients message _ h Hwf (visits_elements h)) as (h1 & Hr1 & _).
  exists h1. intros order Hv.
  destruct (wf_range_clients message order h Hwf Hv) as (h2 & Hr2 & _).
  rewrite Hr2. f_equal.
  pose proof (visits_elements h) as Hv1.
  assert (∀ c, ws.chans h2 !! c = ws.chans h1 !! c
               ∧ (c ∈ ws.clients h2 ↔ c ∈ ws.clients h1)) as Hsame.
  { intros c. destruct (decide (c ∈ ws.clients h)) as [Hin|Hout].
    - destruct (Hwf c Hin) as (ch & Hch & Ho).
      destruct Hv as [Hnd Hv], Hv1 as [Hnd1 Hv1].
      destruct (range_clients_open message order h Hnd) as (h2' & Hr2' & Hs2).
      { intros c' Hc'. apply Hwf. by apply Hv. }
      destruct (range_clients_open message _ h Hnd1) as (h1' & Hr1' & Hs1).
      { intros c' Hc'. apply Hwf. by apply Hv1. }
      rewrite Hr2 in Hr2'. injection Hr2' as <-.
      rewrite Hr1 in Hr1'. injection Hr1' as <-.
      specialize (Hs2 c ch (proj2 (Hv c) Hin) Hch).
      specialize (Hs1 c ch (proj2 (Hv1 c) Hin) Hch).
      destruct (ws.can_send ch).
      + destruct Hs1 as [-> ->], Hs2 as [-> ->]. done.
      + destruct Hs1 as [-> H1], Hs2 as [-> H2]. split; [done|tauto].
    - destruct Hv as [_ Hv], Hv1 as [_ Hv1].
      destruct (range_clients_other message order c h h2 Hr2) as [-> ->];
        [by rewrite Hv|].
      destruct (range_clients_other message _ c h h1 Hr1) as [-> ->];
        [by rewrite Hv1|]. done. }
  destruct h1 as [cl1 ch1], h2 as [cl2 ch2]. simpl in *. f_equal.
  - apply set_eq. intros c. apply Hsame.
  - apply map_eq. intros c. apply Hsame.
Qed.

(** On the worked hub: meeting session 2 before session 1 ends in the state
    that meeting 1 before 2 ends in. *)
Lemma publish_order_irrelevant_witness :
  ∃ h', ws.range_clients [1%positive; 2%positive] "new" examples.hub12 = Some h'
        ∧ ws.range_clients [2%positive; 1%positive] "new" examples.hub12 = Some h'.
Proof.
  destruct (publish_order_irrelevant examples.hub12 "new" wf_hub12) as (h' & H).
  exists h'. split.
  - apply H, visits_hub12.
  - apply H. destruct visits_hub12 as [_ Hv]. split.
    + apply NoDup_cons. split; [by intros E%list_elem_of_singleton|].
      apply NoDup_singleton.
    + intros c. rewrite <- Hv, !elem_of_cons, !elem_of_nil. tauto.
Defined.

Section HubMore.
Import ws.

(** A publish to a session with room, seen from that session. *)
Lemma step_publish_room h c ch message h' :
  wf h -> c ∈ clients h -> chans h !! c = Some ch -> can_send ch = true ->
  step h (Publish message) h' ->
  wf h' ∧ c ∈ clients h' ∧ chans h' !! c = Some (push message ch).
Proof.
  intros Hwf Hin Hch Hroom Hstep.
  inversion Hstep as [| |m order h0 h0' Hv Hrun]; subst.
  destruct (wf_range_clients message order h Hwf Hv) as (h1 & Hr1 & Hwf1).
  rewrite Hrun in Hr1. injection Hr1 as <-. split; [done|].
  destruct Hv as [Hnd Hv].
  destruct (range_clients_open message order h Hnd) as (h2 & Hr2 & Hspec).
  { intros c' Hc'. apply Hwf. by apply Hv. }
  rewrite Hrun in Hr2. injection Hr2 as <-.
  specialize (Hspec c ch (proj2 (Hv c) Hin) Hch). rewrite Hroom in Hspec.
  destruct Hspec as [Hch' Hmem]. split; [by apply Hmem|done].
Qed.

End HubMore.

(** X16.  Events arrive in the order they were published: when the queue of
    a registered session has room for all of them, a series of publishes
    runs to its end without panic, and after it the session is still
    registered and its queue holds what it held, followed by the events in
    the order of the publishes. *)
Theorem publishes_keep_order
  (h : ws.Hub) (c : ws.Client) (ch : ws.Chan) (events : list ws.payload) :
  ws.wf h -> c ∈ ws.clients h -> ws.chans h !! c = Some ch ->
  (length (ws.buf ch) + length events <= ws.cap ch)%nat ->
  (∃ h', ws.steps h (ws.Publish <$> events) h')
  ∧ ∀ h', ws.steps h (ws.Publish <$> events) h' ->
          c ∈ ws.clients h'
          ∧ ws.chans h' !! c
            = Some (ws.mkChan (ws.buf ch ++ events) (ws.cap ch) false).
Proof.
  revert h ch. induction events as [|m events IH]; intros h ch Hwf Hin Hch Hroom.
  - split; [exists h; constructor|]. intros h' Hsteps.
    inversion Hsteps; subst. split; [done|].
    destruct (Hwf c Hin) as (ch' & Hch' & Ho).
    rewrite Hch in Hch'. injection Hch' as <-.
    rewrite Hch. f_equal. destruct ch as [b k cl]. simpl in *.
    by rewrite app_nil_r, Ho.
  - simpl in Hroom.
    assert (ws.can_send ch = true) as Hcan.
    { unfold ws.can_send. apply Nat.ltb_lt. lia. }
    assert (∀ h1, ws.step h (ws.Publish m) h1 ->
                  ws.wf h1 ∧ c ∈ ws.clients h1
                  ∧ ws.chans h1 !! c = Some (ws.push m ch)) as Hone.
    { intros h1. by apply step_publish_room. }
    assert (length (ws.buf (ws.push m ch)) + length events <= ws.cap (ws.push m ch))%nat
      as Hroom'.
    { simpl. rewrite length_app. simpl. lia. }
    split.
    + destruct (Run_step_wf (ws.Publish m) h Hwf) as (h1 & _ & Hstep & _);
        [by intros c' [=]|].
      destruct (Hone h1 Hstep) as (Hwf1 & Hin1 & Hch1).
      destruct (IH h1 (ws.push m ch) Hwf1 Hin1 Hch1 Hroom') as [[h' Hsteps] _].
      exists h'. rewrite fmap_cons. by econstructor.
    + intros h' Hsteps. rewrite fmap_cons in Hsteps.
      inversion Hsteps as [|h0 r h1 rs h2 Hstep Hrest]; subst.
      destruct (Hone h1 Hstep) as (Hwf1 & Hin1 & Hch1).
      destruct (IH h1 (ws.push m ch) Hwf1 Hin1 Hch1 Hroom') as [_ Hall].
      destruct (Hall h' Hrest) as [Hin' Hch']. split; [done|].
      rewrite Hch'. simpl. by rewrite <- app_assoc.
Qed.

(** X17.  The unregister case for a registered session.  With an open queue:
    the session leaves the live set, its queue is closed with what it held
    still in it, and no other session or queue is touched.  With a queue
    that was closed before, [close] panics. *)
Theorem unregister_closes_queue (h : ws.Hub) (c : ws.Client) (ch : ws.Chan) :
  c ∈ ws.clients h -> ws.chans h !! c = Some ch ->
  (ws.closed ch = false ->
     ∃ h', ws.unregister c h = Some h'
       ∧ (c ∉ ws.clients h')
       ∧ ws.chans h' !! c = Some (ws.mkChan (ws.buf ch) (ws.cap ch) true)
       ∧ ∀ c', c' ≠ c ->
               ws.chans h' !! c' = ws.chans h !! c'
               ∧ (c' ∈ ws.clients h' ↔ c' ∈ ws.clients h))
  ∧ (ws.closed ch = true -> ws.unregister c h = None).
Proof.
  intros Hin Hch. split.
  - intros Ho.
    destruct (ws.unregister c h) as [h'|] eqn:Hun.
    + exists h'. split; [done|]. split; [by apply (unregister_removes c h)|].
      split; [|intros c' Hne; by apply (unregister_other c c' h h')].
      unfold ws.unregister in Hun. rewrite decide_True in Hun by done.
      rewrite (close_open c (ws.delete_client c h) ch Hch Ho) in Hun.
      injection Hun as <-. simpl. by rewrite lookup_insert_eq.
    + unfold ws.unregister in Hun. rewrite decide_True in Hun by done.
      by rewrite (close_open c (ws.delete_client c h) ch Hch Ho) in Hun.
  - intros Hc. unfold ws.unregister, ws.close. rewrite decide_True by done.
    simpl. by rewrite Hch, Hc.
Qed.

Section HubMoreExamples.
Import ws examples_more.

Lemma wf_hub_room : wf hub_room.
Proof.
  intros c Hin. unfold hub_room in Hin. simpl in Hin.
  apply elem_of_singleton in Hin. subst c.
  eexists. split; [reflexivity|done].
Qed.

End HubMoreExamples.

(** On a hub whose one session has room for two more events. *)
Lemma publishes_keep_order_witness :
  ∃ h', ws.steps examples_more.hub_room [ws.Publish "a"; ws.Publish "b"] h'
    ∧ ws.chans h' !! 1%positive = Some (ws.mkChan ["old"; "a"; "b"] 3 false).
Proof.
  destruct (publishes_keep_order examples_more.hub_room 1%positive
              (ws.mkChan ["old"] 3 false) ["a"; "b"] wf_hub_room)
    as [[h' Hsteps] Hall].
  - unfold examples_more.hub_room. simpl. apply elem_of_singleton. reflexivity.
  - reflexivity.
  - simpl. lia.
  - exists h'. split; [exact Hsteps|]. apply (Hall h' Hsteps).
Defined.

(** On the worked hub: session 2 is unregistered, its queue closed with
    "old" still in it. *)
Lemma unregister_closes_queue_witness :
  ∃ h', ws.unregister 2%positive examples.hub12 = Some h'
    ∧ ws.chans h' !! 2%positive = Some (ws.mkChan ["old"] 1 true).
Proof.
  destruct (proj1 (unregister_closes_queue examples.hub12 2%positive
                     (ws.mkChan ["old"] 1 false)
                     ltac:(apply elem_of_union_r, elem_of_singleton; reflexivity)
                     eq_refl) eq_refl)
    as (h' & Hun & _ & Hch & _).
  exists h'. split; [exact Hun|exact Hch].
Defined.

(* ===================================================================== *)
(** * The gRPC server and the HTTP handlers *)
(* ===================================================================== *)

(** X18.  [ForumServer.GetMessages] hides banned messages but counts them:
    the messages of the response are the messages of the page that are not
    banned, in the order of the page (newest first), and [Total] is the
    number of all stored messages, banned ones too.  The database is only
    read. *)
Theorem ForumServer_GetMessages_hides_banned
  (w : usecase.World) (limit offset : Z) :
  let page := fst (repository.List limit offset (usecase.repo w)) in
  ∃ messages,
    fst (grpc.GetMessages limit offset w)
    = Ok (messages, Z.of_nat (length (repository.messages (usecase.repo w))))
    ∧ (∀ m, m ∈ messages ↔ m ∈ page ∧ domain.Message.IsBanned m = false)
    ∧ messages `sublist_of` page
    ∧ StronglySorted repository.newer_first messages
    ∧ usecase.repo (snd (grpc.GetMessages limit offset w)) = usecase.repo w.
Proof.
  cbv zeta. eexists. split; [reflexivity|]. simpl.
  split; [|split; [|split]].
  - intros m. rewrite list_elem_of_filter. tauto.
  - apply sublist_filter.
  - eapply StronglySorted_sublist; [apply sublist_filter|].
    eapply StronglySorted_sublist; [apply limit_offset_sublist|].
    apply GetAllMessages_newest_first.
  - done.
Qed.





Section PrefixFacts.
Import http_auth.

Lemma substring_all (s : string) : substring 0 (String.length s) s = s.
Proof. induction s as [|a s IH]; simpl; [done|by rewrite IH]. Qed.

Lemma append_cons (a : ascii) (p t : string) :
  (String a p ++ t)%string = String a (p ++ t)%string.
Proof. reflexivity. Qed.

Lemma prefix_split (p s : string) :
  String.prefix p s = true ->
  s = (p ++ substring (String.length p) (String.length s - String.length p) s)%string.
Proof.
  revert s. induction p as [|a p IH]; intros s H.
  - simpl. by rewrite Nat.sub_0_r, substring_all.
  - destruct s as [|b s]; simpl in H; [discriminate|].
    destruct (ascii_dec a b) as [->|]; [|discriminate].
    rewrite append_cons. simpl. f_equal. by apply IH.
Qed.

Lemma prefix_append (p t : string) : String.prefix p (p ++ t)%string = true.
Proof.
  induction p as [|a p IH]; [by destruct t|].
  rewrite append_cons. simpl. by destruct (ascii_dec a a).
Qed.

Lemma length_append (p t : string) :
  String.length (p ++ t)%string = (String.length p + String.length t)%nat.
Proof.
  induction p as [|a p IH]; [done|]. rewrite append_cons. simpl. by rewrite IH.
Qed.

Lemma substring_append (p t : string) :
  substring (String.length p) (String.length t) (p ++ t)%string = t.
Proof.
  induction p as [|a p IH]; [apply substring_all|].
  rewrite append_cons. simpl. exact IH.
Qed.

(** [TrimPrefix] takes a prefix that is there, and only that. *)
Lemma TrimPrefix_append (p t : string) : TrimPrefix (p ++ t)%string p = t.
Proof.
  unfold TrimPrefix, HasPrefix. rewrite prefix_append, length_append.
  replace (String.length p + String.length t - String.length p)%nat
    with (String.length t) by lia.
  apply substring_append.
Qed.

Lemma TrimPrefix_changes (s p : string) :
  TrimPrefix s p ≠ s -> s = (p ++ TrimPrefix s p)%string.
Proof.
  unfold TrimPrefix, HasPrefix. destruct (String.prefix p s) eqn:E; [|done].
  intros _. by apply prefix_split.
Qed.

Lemma append_longer (p t : string) : p ≠ "" -> (p ++ t)%string ≠ t.
Proof.
  intros Hp E. apply (f_equal String.length) in E.
  rewrite length_append in E. destruct p; [done|]. simpl in E. lia.
Qed.

End PrefixFacts.

(** X21.  The DELETE routes of [Handler] are for admins.  Unless the
    Authorization header is "Bearer " followed by a token that the auth
    service resolves to a user with the role "admin", deleting or banning a
    message and deleting a comment are answered with 401 or 403 and nothing
    at all is called: the world is as before.  With such a header the
    request goes on to [deleteMessage] (for [action=delete]), [banMessage]
    (otherwise) or [deleteComment]. *)
Theorem delete_routes_need_admin
  (ValidateToken : string -> result domain.User.t)
  (action authHeader : string) (id : Z) (w : usecase.World) :
  let message_delete :=
    http_auth.handleMessageDelete ValidateToken action authHeader id w in
  let comment_delete :=
    http_auth.handleCommentDelete ValidateToken authHeader id w in
  (¬ http_auth.admin_header ValidateToken authHeader ->
     snd message_delete = w ∧ snd comment_delete = w
     ∧ ∃ text code, fst message_delete = http_auth.Error text code
                    ∧ fst comment_delete = http_auth.Error text code
                    ∧ (code = 401 ∨ code = 403))
  ∧ (http_auth.admin_header ValidateToken authHeader ->
     message_delete
     = (if String.eqb action "delete" then http_auth.deleteMessage id w
        else http_auth.banMessage id w)
     ∧ comment_delete = http_auth.deleteComment id w).
Proof.
  cbv zeta.
  unfold http_auth.handleMessageDelete, http_auth.handleCommentDelete,
    http_auth.authAdminMiddleware, http_auth.authMiddleware.
  split.
  - intros Hno.
    destruct (String.eqb_spec authHeader "") as [->|Hne].
    { destruct (String.eqb action "delete"); simpl;
        (split; [done|]; split; [done|]; do 2 eexists; eauto). }
    destruct (String.eqb_spec (http_auth.TrimPrefix authHeader "Bearer ") authHeader)
      as [Heq|Hch].
    { destruct (String.eqb action "delete"); simpl;
        (split; [done|]; split; [done|]; do 2 eexists; eauto). }
    apply TrimPrefix_changes in Hch.
    destruct (ValidateToken (http_auth.TrimPrefix authHeader "Bearer "))
      as [user|e] eqn:Hvt.
    2:{ destruct (String.eqb action "delete"); simpl;
          (split; [done|]; split; [done|]; do 2 eexists; eauto). }
    destruct (String.eqb_spec (domain.User.Role user) "admin") as [Hrole|Hrole].
    { exfalso. apply Hno. by exists (http_auth.TrimPrefix authHeader "Bearer "), user. }
    destruct (String.eqb action "delete"); simpl;
      (split; [done|]; split; [done|]; do 2 eexists; eauto).
  - intros (token & user & -> & Hvt & Hrole).
    rewrite TrimPrefix_append, Hvt, Hrole. simpl.
    destruct (String.eqb_spec token ("Bearer " ++ token)%string) as [E|_].
    { symmetry in E. by apply append_longer in E. }
    by destruct (String.eqb action "delete").
Qed.

(** With the tokens of the tests: the token of a plain user is answered 403
    and message 1 stays; the token of the admin deletes it. *)
Lemma delete_routes_need_admin_witness :
  http_auth.handleMessageDelete examples_more.validate0 "delete"
    "Bearer valid_user_token" 1 examples.world_later
  = (http_auth.Error "Admin access required" 403, examples.world_later)
  ∧ http_auth.handleMessageDelete examples_more.validate0 "delete"
      "Bearer valid_admin_token" 1 examples.world_later
    = http_auth.deleteMessage 1 examples.world_later.
Proof.
  split.
  - reflexivity.
  - refine (proj1 (proj2 (delete_routes_need_admin examples_more.validate0
              "delete" "Bearer valid_admin_token" 1 examples.world_later) _)).
    exists "valid_admin_token", (domain.User.mk 2 "admin" "admin" false).
    repeat split.
Defined.

(* ===================================================================== *)
(** * Validation in the domain *)
(* ===================================================================== *)
Section ValidateFacts.
Import domain text.

Lemma trim_left_empty s : trim_left s = "" ↔ blank s = true.
Proof.
  induction s as [|a s IH]; simpl; [done|].
  destruct (is_space a); simpl; [exact IH|]. split; discriminate.
Qed.

Lemma trim_right_empty s : trim_right s = "" ↔ blank s = true.
Proof.
  induction s as [|a s IH]; simpl; [done|].
  destruct (trim_right s) eqn:E.
  - destruct (is_space a); simpl.
    + split; [intros _; by apply IH|done].
    + split; discriminate.
  - split; [discriminate|]. intros H. apply andb_prop in H as [_ H].
    apply IH in H. discriminate.
Qed.

Lemma blank_trim_left s : blank (trim_left s) = blank s.
Proof.
  induction s as [|a s IH]; simpl; [done|].
  destruct (is_space a) eqn:E; simpl; [exact IH|]. by rewrite E.
Qed.

(** [TrimSpace] leaves nothing exactly of the texts that are blank. *)
Lemma TrimSpace_empty s : TrimSpace s = "" ↔ blank s = true.
Proof. unfold TrimSpace. by rewrite trim_right_empty, blank_trim_left. Qed.

Lemma TrimSpace_eqb s : String.eqb (TrimSpace s) "" = blank s.
Proof.
  destruct (blank s) eqn:E.
  - apply String.eqb_eq. by apply TrimSpace_empty.
  - apply String.eqb_neq. rewrite TrimSpace_empty. congruence.
Qed.

End ValidateFacts.

(** X22.  [Message.Validate].  A content that is empty or all one-byte white
    space is turned down with "content cannot be empty", whatever the rest
    of the message.  A message that passes has a content of 1 to 1000
    bytes that is not blank and a user name that is not blank. *)
Theorem Message_Validate_bounds (m : domain.Message.t) :
  (text.blank (domain.Message.Content m) = true ->
     domain.Message_Validate m = Some "content cannot be empty")
  ∧ (domain.Message_Validate m = None ->
     text.blank (domain.Message.Content m) = false
     ∧ text.blank (domain.Message.Username m) = false
     ∧ 1 <= domain.len (domain.Message.Content m) <= 1000).
Proof.
  unfold domain.Message_Validate. rewrite !TrimSpace_eqb. split.
  - by intros ->.
  - destruct (text.blank (domain.Message.Content m)) eqn:Hc; [discriminate|].
    destruct (text.blank (domain.Message.Username m)); [discriminate|].
    destruct (domain.len (domain.Message.Content m) >? 1000) eqn:Hl;
      [discriminate|].
    intros _. split; [done|]. split; [done|]. split; [|lia].
    unfold domain.len. destruct (domain.Message.Content m); [discriminate|].
    simpl. lia.
Qed.

(** A message of three spaces does not pass. *)
Lemma Message_Validate_bounds_witness :
  domain.Message_Validate (domain.Message.mk 0 1 "testuser" "   " 0 false)
  = Some "content cannot be empty".
Proof.
  apply (proj1 (Message_Validate_bounds
                  (domain.Message.mk 0 1 "testuser" "   " 0 false))).
  reflexivity.
Defined.

(** X23.  [Comment.Validate].  A blank content is turned down with "content
    cannot be empty".  A comment that passes has a content of 1 to 500
    bytes that is not blank, a user name that is not blank, and a message
    id above 0. *)
Theorem Comment_Validate_bounds (c : domain.Comment.t) :
  (text.blank (domain.Comment.Content c) = true ->
     domain.Comment_Validate c = Some "content cannot be empty")
  ∧ (domain.Comment_Validate c = None ->
     text.blank (domain.Comment.Content c) = false
     ∧ text.blank (domain.Comment.Username c) = false
     ∧ 1 <= domain.len (domain.Comment.Content c) <= 500
     ∧ 0 < domain.Comment.MessageID c).
Proof.
  unfold domain.Comment_Validate. rewrite !TrimSpace_eqb. split.
  - by intros ->.
  - destruct (text.blank (domain.Comment.Content c)) eqn:Hc; [discriminate|].
    destruct (text.blank (domain.Comment.Username c)); [discriminate|].
    destruct (domain.len (domain.Comment.Content c) >? 500) eqn:Hl;
      [discriminate|].
    destruct (domain.Comment.MessageID c <=? 0) eqn:Hm; [discriminate|].
    intros _. split; [done|]. split; [done|]. split; [|lia]. split; [|lia].
    unfold domain.len. destruct (domain.Comment.Content c); [discriminate|].
    simpl. lia.
Qed.

(** A comment as the tests make it passes, so its content is within the
    bounds. *)
Lemma Comment_Validate_bounds_witness :
  1 <= domain.len "Test comment" <= 500.
Proof.
  apply (proj2 (Comment_Validate_bounds
                  (domain.Comment.mk 0 1 2 "commenter" "Test comment" 0 0))
           eq_refl).
Defined.

(* ===================================================================== *)
(** * Every reachable database *)
(* ===================================================================== *)

(** X24.  The invariant of the tables.  Whatever calls of [MessageUseCase]
    are made from the empty database, in whatever order, with whatever auth
    service and clock, and whether they succeed or fail: no two stored
    messages share an id, no two stored comments share an id, and no stored
    id is above the counter of its table. *)
Theorem tables_stay_well_formed
  (auth : Z -> result domain.User.t) (clock : Z) (calls : list usecase.Call) :
  let w := foldl usecase.perform
             (usecase.mkWorld repository.empty auth clock []) calls in
  NoDup (domain.Message.ID <$> repository.messages (usecase.repo w))
  ∧ NoDup (domain.Comment.ID <$> repository.comments (usecase.repo w))
  ∧ Forall (fun m => domain.Message.ID m
                     <= repository.messages_seq (usecase.repo w))
           (repository.messages (usecase.repo w))
  ∧ Forall (fun c => domain.Comment.ID c
                     <= repository.comments_seq (usecase.repo w))
           (repository.comments (usecase.repo w)).
Proof.
  cbv zeta.
  apply (reachable_valid calls (usecase.mkWorld repository.empty auth clock [])).
  apply valid_empty.
Qed.
